(** * junit2htmlreport.matrix: the report matrix and its outcome combinator

    A shallow embedding of [src/junit2htmlreport/matrix.py].

    Conventions of the model.
    - A Python [str] is a [string]. On a text in ASCII the string methods
      used by the module are computed. [title] and [strip] take a character
      above 127 for an uncased code point that is no white space. What
      [isdigit], [int] and [lower], on which the natural order of the axes
      rests, answer for a text with a character above 127 is left to the
      class [str.Unicode]: there are digits outside ASCII, and [int]
      raises [ValueError] for some of them.
    - A Python [int] is a [Z].
    - A Python [dict] is an association list kept in insertion order
      (module [Dict]); assigning to a key that is present replaces the value
      in place, assigning to a new key appends it.
    - A method of [ReportMatrix] that mutates [self] is a function from the
      attributes before the call to the attributes after it, in the
      exception monad [result].

    The embedding holds the construction and the ingestion of
    [ReportMatrix], the two orders of the axes, the outcome combinator with
    the short codes of the three classes, the page and the report files of
    [HtmlReportMatrix] and the text of [TextReportMatrix]. *)

From Stdlib Require Import String Ascii List ZArith NArith Bool Lia.
From Stdlib Require Import Permutation Sorted DecimalString DecimalZ.
Import ListNotations.
Local Open Scope string_scope.
Local Open Scope list_scope.

(** ** Exceptions *)

Inductive exception : Type :=
| KeyError (key : string)
| IndexError
| TypeError
| ValueError.

Inductive result (A : Type) : Type :=
| Ok (a : A)
| Raise (e : exception).
Arguments Ok {A} a.
Arguments Raise {A} e.

Definition bind {A B : Type} (c : result A) (k : A -> result B) : result B :=
  match c with
  | Ok a => k a
  | Raise e => Raise e
  end.

Notation "x <- c ;; k" := (bind c (fun x => k))
  (at level 61, c at next level, right associativity).
Notation "' pat <- c ;; k" := (bind c (fun x => match x with pat => k end))
  (at level 61, pat pattern, c at next level, right associativity).

(** [for x in xs: body], the loop state threaded from left to right. *)
Fixpoint for_each {A S : Type} (body : S -> A -> result S) (xs : list A) (s : S)
  : result S :=
  match xs with
  | [] => Ok s
  | x :: xs' => s' <- body s x ;; for_each body xs' s'
  end.

(** ** Python strings *)

Module str.

Definition is_upper (c : ascii) : bool :=
  let n := nat_of_ascii c in (65 <=? n)%nat && (n <=? 90)%nat.

Definition is_lower (c : ascii) : bool :=
  let n := nat_of_ascii c in (97 <=? n)%nat && (n <=? 122)%nat.

Definition is_digit (c : ascii) : bool :=
  let n := nat_of_ascii c in (48 <=? n)%nat && (n <=? 57)%nat.

(** White space of [str.strip()]: tab, line feed, vertical tab, form feed,
    carriage return, the four separators 28..31 and the space. *)
Definition is_space (c : ascii) : bool :=
  let n := nat_of_ascii c in
  ((9 <=? n)%nat && (n <=? 13)%nat) || ((28 <=? n)%nat && (n <=? 32)%nat).

Definition to_upper (c : ascii) : ascii :=
  if is_lower c then ascii_of_nat (nat_of_ascii c - 32) else c.

Definition to_lower (c : ascii) : ascii :=
  if is_upper c then ascii_of_nat (nat_of_ascii c + 32) else c.

(** [s.isascii()] *)
Definition is_ascii (c : ascii) : bool := (nat_of_ascii c <? 128)%nat.

Fixpoint isascii (s : string) : bool :=
  match s with
  | EmptyString => true
  | String c s' => is_ascii c && isascii s'
  end.

(** What Python answers beyond ASCII: [text.isdigit()] for a text with a
    character outside ASCII, which is true of digits that the pattern
    [[0-9]] does not match; [int(text)] for a text that is not a run of
    the digits of ASCII, which reads the decimal digits of every script
    and raises [ValueError] for a digit that is not decimal; and
    [text.lower()] for a text with a character outside ASCII. *)
Class Unicode : Type := {
  unicode_isdigit : string -> bool;
  unicode_int : string -> result N;
  unicode_lower : string -> string
}.

(** [s.lower()] *)
Fixpoint ascii_lower (s : string) : string :=
  match s with
  | EmptyString => EmptyString
  | String c s' => String (to_lower c) (ascii_lower s')
  end.

Definition lower {u : Unicode} (s : string) : string :=
  if isascii s then ascii_lower s else unicode_lower s.

(** [s.title()]: a cased character is upper-cased when the character before
    it is not cased, and lower-cased otherwise. *)
Fixpoint title_from (previous_is_cased : bool) (s : string) : string :=
  match s with
  | EmptyString => EmptyString
  | String c s' =>
      if is_lower c then
        String (if previous_is_cased then c else to_upper c) (title_from true s')
      else if is_upper c then
        String (if previous_is_cased then to_lower c else c) (title_from true s')
      else String c (title_from false s')
  end.

Definition title (s : string) : string := title_from false s.

(** [s.isdigit()]: in ASCII, not empty and every character a digit. *)
Fixpoint all_digits (s : string) : bool :=
  match s with
  | EmptyString => true
  | String c s' => is_digit c && all_digits s'
  end.

Definition ascii_isdigit (s : string) : bool :=
  match s with
  | EmptyString => false
  | _ => all_digits s
  end.

Definition isdigit {u : Unicode} (s : string) : bool :=
  if isascii s then ascii_isdigit s else unicode_isdigit s.

(** [int(s)]: the number that a run of the digits of ASCII writes. *)
Fixpoint int_from (acc : N) (s : string) : N :=
  match s with
  | EmptyString => acc
  | String c s' => int_from (10 * acc + (N_of_ascii c - 48))%N s'
  end.

Definition ascii_int (s : string) : N := int_from 0%N s.

Definition int {u : Unicode} (s : string) : result N :=
  if ascii_isdigit s then Ok (ascii_int s) else unicode_int s.

(** [str(i)] for an integer. *)
Definition of_int (i : Z) : string := NilZero.string_of_int (Z.to_int i).

Fixpoint lstrip (s : string) : string :=
  match s with
  | EmptyString => EmptyString
  | String c s' => if is_space c then lstrip s' else s
  end.

Fixpoint rstrip (s : string) : string :=
  match s with
  | EmptyString => EmptyString
  | String c s' =>
      match rstrip s' with
      | EmptyString => if is_space c then EmptyString else String c EmptyString
      | r => String c r
      end
  end.

(** [s.strip()] *)
Definition strip (s : string) : string := rstrip (lstrip s).

(** [s1 < s2], the comparison of strings by code points. *)
Definition ltb (s1 s2 : string) : bool :=
  match String.compare s1 s2 with
  | Lt => true
  | _ => false
  end.

End str.

(** [x in xs] for a list of strings. *)
Definition contains (x : string) (xs : list string) : bool :=
  existsb (String.eqb x) xs.

(** [os.path.basename(p)] (POSIX): what follows the last slash. *)
Module os_path.

Fixpoint basename (p : string) : string :=
  match p with
  | EmptyString => EmptyString
  | String c p' =>
      if existsb (Ascii.eqb "/"%char) (list_ascii_of_string p') then basename p'
      else if Ascii.eqb c "/"%char then p'
      else p
  end.

End os_path.

(** ** Python dictionaries *)

Module Dict.

Definition t (V : Type) : Type := list (string * V).

Definition empty {V : Type} : t V := [].

(** [d.get(k)] *)
Fixpoint get {V : Type} (k : string) (d : t V) : option V :=
  match d with
  | [] => None
  | (k', v) :: d' => if String.eqb k k' then Some v else get k d'
  end.

(** [k in d] *)
Definition mem {V : Type} (k : string) (d : t V) : bool :=
  match get k d with
  | Some _ => true
  | None => false
  end.

(** [d[k] = v] *)
Fixpoint set {V : Type} (k : string) (v : V) (d : t V) : t V :=
  match d with
  | [] => [(k, v)]
  | (k', v') :: d' =>
      if String.eqb k k' then (k', v) :: d' else (k', v') :: set k v d'
  end.

(** [d.keys()], in insertion order *)
Definition keys {V : Type} (d : t V) : list string := map fst d.

(** [d.get(k, default)] *)
Definition get_default {V : Type} (k : string) (default : V) (d : t V) : V :=
  match get k d with
  | Some v => v
  | None => default
  end.

End Dict.

(** [d[k]] as an expression: a missing key raises [KeyError]. *)
Definition getitem {V : Type} (k : string) (d : Dict.t V) : result V :=
  match Dict.get k d with
  | Some v => Ok v
  | None => Raise (KeyError k)
  end.

(** [xs[0]] *)
Definition first {A : Type} (xs : list A) : result A :=
  match xs with
  | x :: _ => Ok x
  | [] => Raise IndexError
  end.

(** ** The parser module *)

(** Modelled from the spec: the module [junit2htmlreport.parser] is not among
    the sources. The matrix reads from an already-parsed report an ordered
    sequence of suites, each with a mapping of class name to class subtree,
    each with an ordered sequence of test cases, each exposing a base name,
    an outcome, an ordered sequence of declared properties and an anchor.
    The fields below are what [matrix.py] reads: [testcase.basename()],
    [testcase.outcome()], [testcase.properties], [testcase.anchor()],
    [prop.value], [testclass.cases], [suite.classes] and [parsed.suites]. *)
Module parser.

Record Property : Type := {
  value : string
}.

Record Case : Type := {
  basename : string;
  outcome : string;
  properties : list Property;
  anchor : string
}.

Record Class : Type := {
  cases : list Case
}.

Record Suite : Type := {
  classes : Dict.t Class
}.

Record Junit : Type := {
  suites : list Suite
}.

End parser.

(** The outcome constants imported from the parser,
    [from junit2htmlreport.parser import SKIPPED, FAILED, PASSED, ABSENT],
    are parameters of the development. *)
Class ParserOutcomes : Type := {
  SKIPPED : string;
  FAILED : string;
  PASSED : string;
  ABSENT : string
}.

Definition UNTESTED : string := "untested".
Definition PARTIAL_PASS : string := "partial pass".
Definition PARTIAL_FAIL : string := "partial failure".
Definition TOTAL_FAIL : string := "total failure".

(** The three elementary outcomes and [ABSENT] differ from one another and
    from the four derived outcomes of this module. *)
Fixpoint pairwise_distinct (xs : list string) : bool :=
  match xs with
  | [] => true
  | x :: xs' => negb (contains x xs') && pairwise_distinct xs'
  end.

Definition distinct_outcomes {po : ParserOutcomes} : bool :=
  pairwise_distinct
    [PASSED; SKIPPED; FAILED; ABSENT;
     UNTESTED; PARTIAL_PASS; PARTIAL_FAIL; TOTAL_FAIL].

(** The outcome strings of the junit2html parser. *)
Definition junit_outcomes : ParserOutcomes :=
  {| SKIPPED := "skipped"; FAILED := "failed";
     PASSED := "passed"; ABSENT := "absent" |}.

(** ** The natural sort key *)

Inductive key_part : Type :=
| KInt (n : N)
| KText (s : string).

(** [_nsre.split(s)] for [_nsre = re.compile('([0-9]+)')]: the pieces
    between the digit runs, with the digit runs themselves in between.
    [text] and [digits] hold the piece being read, reversed. *)
Fixpoint split_text (text : list ascii) (s : string) : list string :=
  match s with
  | EmptyString => [string_of_list_ascii (rev text)]
  | String c s' =>
      if str.is_digit c
      then string_of_list_ascii (rev text) :: split_digits [c] s'
      else split_text (c :: text) s'
  end
with split_digits (digits : list ascii) (s : string) : list string :=
  match s with
  | EmptyString => [string_of_list_ascii (rev digits); EmptyString]
  | String c s' =>
      if str.is_digit c
      then split_digits (c :: digits) s'
      else string_of_list_ascii (rev digits) :: split_text [c] s'
  end.

Definition nsre_split (s : string) : list string := split_text [] s.

(** [[f(x) for x in xs]] *)
Fixpoint comprehension {A B : Type} (f : A -> result B) (xs : list A)
  : result (list B) :=
  match xs with
  | [] => Ok []
  | x :: xs' => y <- f x ;; ys <- comprehension f xs' ;; Ok (y :: ys)
  end.

(** [int(text) if text.isdigit() else text.lower()] *)
Definition key_part_of {u : str.Unicode} (text : string) : result key_part :=
  if str.isdigit text then n <- str.int text ;; Ok (KInt n)
  else Ok (KText (str.lower text)).

Definition natural_sort_key {u : str.Unicode} (s : string)
  : result (list key_part) :=
  comprehension key_part_of (nsre_split s).

(** The key of a name in ASCII, for which nothing is asked of the class
    [str.Unicode]. *)
Definition ascii_key_part (text : string) : key_part :=
  if str.ascii_isdigit text then KInt (str.ascii_int text)
  else KText (str.ascii_lower text).

Definition ascii_sort_key (s : string) : list key_part :=
  map ascii_key_part (nsre_split s).

(** [a == b] on key parts: an integer never equals a string. *)
Definition key_part_eqb (a b : key_part) : bool :=
  match a, b with
  | KInt m, KInt n => N.eqb m n
  | KText s, KText t => String.eqb s t
  | _, _ => false
  end.

(** [a < b] on key parts: comparing an integer with a string raises. *)
Definition key_part_lt (a b : key_part) : result bool :=
  match a, b with
  | KInt m, KInt n => Ok (N.ltb m n)
  | KText s, KText t => Ok (str.ltb s t)
  | _, _ => Raise TypeError
  end.

(** [k1 < k2] on lists: the first pair of unequal items decides, and a
    proper prefix is smaller. *)
Fixpoint key_lt (k1 k2 : list key_part) : result bool :=
  match k1, k2 with
  | [], [] => Ok false
  | [], _ :: _ => Ok true
  | _ :: _, [] => Ok false
  | a :: k1', b :: k2' =>
      if key_part_eqb a b then key_lt k1' k2' else key_part_lt a b
  end.

(** [sorted(xs, key=key)]: a stable sort that compares keys with [<]. The
    model inserts the items one by one from the right, an item going before
    the items whose keys are not below its own; where [<] is a strict order
    of the keys and raises for none of them, every stable sort returns this
    list. *)
Fixpoint insert_by {A K : Type} (lt : K -> K -> result bool) (key : A -> K)
  (x : A) (sorted : list A) : result (list A) :=
  match sorted with
  | [] => Ok [x]
  | y :: sorted' =>
      smaller <- lt (key y) (key x) ;;
      if smaller
      then (rest <- insert_by lt key x sorted' ;; Ok (y :: rest))
      else Ok (x :: y :: sorted')
  end.

Fixpoint sorted_by {A K : Type} (lt : K -> K -> result bool) (key : A -> K)
  (xs : list A) : result (list A) :=
  match xs with
  | [] => Ok []
  | x :: xs' => tail <- sorted_by lt key xs' ;; insert_by lt key x tail
  end.

(** [sorted(xs, key=key)] for a key function that may raise: the keys of
    all items are computed first, in the order of the list, and the items
    are sorted with their keys beside them. *)
Definition sorted_by_key {A K : Type} (lt : K -> K -> result bool)
  (key : A -> result K) (xs : list A) : result (list A) :=
  keyed <- comprehension (fun x => k <- key x ;; Ok (k, x)) xs ;;
  sorted <- sorted_by lt fst keyed ;;
  Ok (map snd sorted).

(** ** class ReportMatrix *)

(** The attributes of an instance. [stdout] holds the lines that the
    methods have printed. *)
Record ReportMatrix : Type := {
  reports : Dict.t parser.Junit;
  cases : Dict.t (Dict.t (Dict.t parser.Case));
  classes : Dict.t (Dict.t parser.Class);
  casenames : Dict.t (list string);
  result_stats : Dict.t Z;
  properties : Dict.t (list parser.Case);
  stdout : list string
}.

Definition set_reports v (self : ReportMatrix) : ReportMatrix :=
  {| reports := v; cases := cases self; classes := classes self;
     casenames := casenames self; result_stats := result_stats self;
     properties := properties self; stdout := stdout self |}.

Definition set_cases v (self : ReportMatrix) : ReportMatrix :=
  {| reports := reports self; cases := v; classes := classes self;
     casenames := casenames self; result_stats := result_stats self;
     properties := properties self; stdout := stdout self |}.

Definition set_classes v (self : ReportMatrix) : ReportMatrix :=
  {| reports := reports self; cases := cases self; classes := v;
     casenames := casenames self; result_stats := result_stats self;
     properties := properties self; stdout := stdout self |}.

Definition set_casenames v (self : ReportMatrix) : ReportMatrix :=
  {| reports := reports self; cases := cases self; classes := classes self;
     casenames := v; result_stats := result_stats self;
     properties := properties self; stdout := stdout self |}.

Definition set_result_stats v (self : ReportMatrix) : ReportMatrix :=
  {| reports := reports self; cases := cases self; classes := classes self;
     casenames := casenames self; result_stats := v;
     properties := properties self; stdout := stdout self |}.

Definition set_properties v (self : ReportMatrix) : ReportMatrix :=
  {| reports := reports self; cases := cases self; classes := classes self;
     casenames := casenames self; result_stats := result_stats self;
     properties := v; stdout := stdout self |}.

(** [print(line)] *)
Definition print (line : string) (self : ReportMatrix) : ReportMatrix :=
  {| reports := reports self; cases := cases self; classes := classes self;
     casenames := casenames self; result_stats := result_stats self;
     properties := properties self; stdout := stdout self ++ [line] |}.

(** [range(1, n + 1)] *)
Definition range_from_1 (n : Z) : list Z :=
  map (fun i => Z.of_nat (S i)) (seq 0 (Z.to_nat n)).

(** [__init__(self, prop_prefix=None, prop_count=0)]. The test
    [if prop_prefix and prop_count] fails for [None], for the empty string
    and for a count of zero. *)
Definition init (prop_prefix : option string) (prop_count : Z) : ReportMatrix :=
  let self :=
    {| reports := Dict.empty; cases := Dict.empty; classes := Dict.empty;
       casenames := Dict.empty; result_stats := Dict.empty;
       properties := Dict.empty; stdout := [] |} in
  match prop_prefix with
  | None => self
  | Some prefix =>
      if negb (String.eqb prefix EmptyString) && negb (Z.eqb prop_count 0) then
        fold_left
          (fun self i =>
             set_properties
               (Dict.set (prefix ++ str.of_int i) [] (properties self)) self)
          (range_from_1 prop_count) self
      else self
  end.

(** [report_order(self)] *)
Definition report_order (self : ReportMatrix) : result (list string) :=
  sorted_by (fun a b => Ok (str.ltb a b)) (fun k => k)
            (Dict.keys (reports self)).

(** [property_order(self)] *)
Definition property_order {u : str.Unicode} (self : ReportMatrix)
  : result (list string) :=
  sorted_by_key key_lt natural_sort_key (Dict.keys (properties self)).



(** The classes of the module: [short_outcome] is overridden by
    [HtmlReportMatrix] and inherited by [TextReportMatrix]. *)
Inductive matrix_class : Type :=
| ReportMatrix_class
| HtmlReportMatrix_class
| TextReportMatrix_class.

Section Outcomes.

Context {po : ParserOutcomes}.

(** [ReportMatrix.short_outcome(self, outcome)] *)
Definition base_short_outcome (outcome : string) : string :=
  if String.eqb outcome PASSED then "/"
  else if String.eqb outcome SKIPPED then "s"
  else if String.eqb outcome FAILED then "f"
  else if String.eqb outcome TOTAL_FAIL then "F"
  else if String.eqb outcome PARTIAL_PASS then "%"
  else if String.eqb outcome PARTIAL_FAIL then "X"
  else if String.eqb outcome UNTESTED then "U"
  else "?".

(** [self.short_outcome(outcome)], dispatched on the class of [self]. *)
Definition short_outcome (cls : matrix_class) (outcome : string) : string :=
  match cls with
  | HtmlReportMatrix_class =>
      if String.eqb outcome PASSED then "ok" else base_short_outcome outcome
  | _ => base_short_outcome outcome
  end.

(** [combined_result(self, results)] *)
Definition combined_result (cls : matrix_class) (results : list string)
  : string * string :=
  if contains PASSED results then
    if contains FAILED results then
      (short_outcome cls PARTIAL_FAIL, str.title PARTIAL_FAIL)
    else if contains SKIPPED results then
      (short_outcome cls PARTIAL_PASS, str.title PARTIAL_PASS)
    else (short_outcome cls PASSED, str.title PASSED)
  else if contains FAILED results then
    (short_outcome cls TOTAL_FAIL, str.title TOTAL_FAIL)
  else if contains SKIPPED results then
    (short_outcome cls UNTESTED, str.title UNTESTED)
  else (" ", EmptyString).

End Outcomes.

(** *** add_report *)

(** The body of [for prop in testcase.properties]. *)
Definition add_property (testclass basename : string) (testcase : parser.Case)
  (self : ReportMatrix) (prop : parser.Property) : result ReportMatrix :=
  if negb (Dict.mem (parser.value prop) (properties self)) then
    Ok (print ("WARNING: Ignoring unrecognized property: " ++ parser.value prop)
              self)
  else
    tests <- getitem (parser.value prop) (properties self) ;;
    let self :=
      set_properties
        (Dict.set (parser.value prop) (tests ++ [testcase]) (properties self))
        self in
    of_class <- getitem testclass (cases self) ;;
    of_case <- getitem basename of_class ;;
    Ok (set_cases
          (Dict.set testclass
             (Dict.set basename
                (Dict.set (parser.value prop) testcase of_case) of_class)
             (cases self))
          self).

(** The body of [for testcase in self.classes[testclass][filename].cases]. *)
Definition add_case (filename testclass : string) (self : ReportMatrix)
  (testcase : parser.Case) : result ReportMatrix :=
  let basename := str.strip (parser.basename testcase) in
  self <-
    (if negb (Dict.mem basename (casenames self)) then
       names <- getitem testclass (casenames self) ;;
       Ok (set_casenames
             (Dict.set testclass (names ++ [basename]) (casenames self)) self)
     else Ok self) ;;
  let self :=
    if negb (Dict.mem testclass (cases self))
    then set_cases (Dict.set testclass Dict.empty (cases self)) self
    else self in
  of_class <- getitem testclass (cases self) ;;
  let self :=
    if negb (Dict.mem basename of_class)
    then set_cases
           (Dict.set testclass (Dict.set basename Dict.empty of_class)
              (cases self)) self
    else self in
  of_class <- getitem testclass (cases self) ;;
  of_case <- getitem basename of_class ;;
  let self :=
    set_cases
      (Dict.set testclass
         (Dict.set basename (Dict.set filename testcase of_case) of_class)
         (cases self)) self in
  let outcome := parser.outcome testcase in
  let self :=
    set_result_stats
      (Dict.set outcome (1 + Dict.get_default outcome 0 (result_stats self))%Z
         (result_stats self)) self in
  for_each (add_property testclass basename testcase)
           (parser.properties testcase) self.

(** The body of [for testclass in suite.classes]. *)
Definition add_class (filename : string) (suite : parser.Suite)
  (self : ReportMatrix) (testclass : string) : result ReportMatrix :=
  let self :=
    if negb (Dict.mem testclass (classes self))
    then set_classes (Dict.set testclass Dict.empty (classes self)) self
    else self in
  let self :=
    if negb (Dict.mem testclass (casenames self))
    then set_casenames (Dict.set testclass [] (casenames self)) self
    else self in
  of_class <- getitem testclass (classes self) ;;
  subtree <- getitem testclass (parser.classes suite) ;;
  let self :=
    set_classes
      (Dict.set testclass (Dict.set filename subtree of_class) (classes self))
      self in
  of_class <- getitem testclass (classes self) ;;
  stored <- getitem filename of_class ;;
  for_each (add_case filename testclass) (parser.cases stored) self.

(** The body of [for suite in parsed.suites]. *)
Definition add_suite (filename : string) (self : ReportMatrix)
  (suite : parser.Suite) : result ReportMatrix :=
  for_each (add_class filename suite) (Dict.keys (parser.classes suite)) self.

(** [add_report(self, filename)]. [parsed] is the report that
    [parser.Junit(filename=filename)] returns for the file. *)
Definition add_report (filename : string) (parsed : parser.Junit)
  (self : ReportMatrix) : result ReportMatrix :=
  let filename := os_path.basename filename in
  let self := set_reports (Dict.set filename parsed (reports self)) self in
  for_each (add_suite filename) (parser.suites parsed) self.

(** A run: the reports are added one after the other. *)
Definition add_reports (files : list (string * parser.Junit))
  (self : ReportMatrix) : result ReportMatrix :=
  for_each (fun self file => add_report (fst file) (snd file) self) files self.

(** ** class HtmlReportMatrix *)

Section Html.

Context {po : ParserOutcomes} {u : str.Unicode}.

(** What the loop over the axes of one test case accumulates. *)
Record row_state : Type := {
  case_results : list string;
  celltds : string;
  property_class : Dict.t string
}.

(** [format] of a value that may be [None]. *)
Definition format_optional (v : option string) : string :=
  match v with
  | Some s => s
  | None => "None"
  end.

(** The link of a cell:
    ["<a class='tooltip-parent testcase-link' href='{}.html#{}'>{}{}</a>"]
    with the tooltip ["<div class='tooltip'>({}) {}</div>"] as last
    argument. *)
Definition cell_link (report_name : string) (anchor : option string)
  (cell cellclass axis : string) : string :=
  "<a class='tooltip-parent testcase-link' href='" ++ report_name
  ++ ".html#" ++ format_optional anchor ++ "'>" ++ cell
  ++ ("<div class='tooltip'>(" ++ str.title cellclass ++ ") " ++ axis
      ++ "</div>")
  ++ "</a>".

(** The body of [for axis in self.property_order()] in [summary]. *)
Definition summary_cell (classname casename : string) (self : ReportMatrix)
  (row : row_state) (axis : string) : result row_state :=
  of_class <- getitem classname (cases self) ;;
  of_case <- getitem casename of_class ;;
  '(cellclass, anchor, cell) <-
    (if negb (Dict.mem axis of_case) then Ok (ABSENT, None, "&nbsp;")
     else
       testcase <- getitem axis of_case ;;
       Ok (parser.outcome testcase, Some (parser.anchor testcase),
           short_outcome HtmlReportMatrix_class (parser.outcome testcase))) ;;
  let case_results := case_results row ++ [cellclass] in
  report_name <- first (Dict.keys (reports self)) ;;
  let cell := cell_link report_name anchor cell cellclass axis in
  let cell := if String.eqb cellclass ABSENT then EmptyString else cell in
  let celltds :=
    (celltds row ++ "<td class='testcase-cell " ++ cellclass ++ "'>" ++ cell
     ++ "</td>")%string in
  let property_class :=
    match Dict.get axis (property_class row) with
    | None => Dict.set axis cellclass (property_class row)
    | Some seen =>
        if String.eqb seen ABSENT
        then Dict.set axis cellclass (property_class row)
        else property_class row
    end in
  Ok {| case_results := case_results; celltds := celltds;
        property_class := property_class |}.

(** The body of [for casename in sorted(set(self.casenames[classname]))] in
    [summary]: the text of the row and the classes of the axes seen so
    far. *)
Definition summary_row (classname : string) (self : ReportMatrix)
  (axis_classes : Dict.t string) (casename : string)
  : result (string * Dict.t string) :=
  let output :=
    ("<tr class='testcase'><td width='16'>" ++ casename ++ "</td>")%string in
  axes <- property_order self ;;
  row <- for_each (summary_cell classname casename self) axes
           {| case_results := []; celltds := EmptyString;
              property_class := axis_classes |} ;;
  let combined_name :=
    snd (combined_result HtmlReportMatrix_class (case_results row)) in
  Ok ((output ++ celltds row
       ++ "<td span class='testcase-combined'>" ++ combined_name ++ "</td>"
       ++ "</tr>")%string,
      property_class row).

End Html.

(** ** What an ingestion does, as data

    The vocabulary in which the properties of [add_report] are stated: the
    test cases of a report in the order in which the loops meet them, the
    outcomes counted, the entries written and the warnings printed. *)

(** [self.classes[testclass][axis]] and [self.cases[testclass][case][axis]]
    as lookups that answer [None] where a key is missing. *)
Definition lookup2 {V : Type} (k1 k2 : string) (d : Dict.t (Dict.t V))
  : option V :=
  match Dict.get k1 d with
  | Some inner => Dict.get k2 inner
  | None => None
  end.

Definition lookup3 {V : Type} (k1 k2 k3 : string)
  (d : Dict.t (Dict.t (Dict.t V))) : option V :=
  match Dict.get k1 d with
  | Some inner => lookup2 k2 k3 inner
  | None => None
  end.

Definition key2_eqb (a b : string * string) : bool :=
  String.eqb (fst a) (fst b) && String.eqb (snd a) (snd b).

Definition key3_eqb (a b : string * string * string) : bool :=
  key2_eqb (fst a) (fst b) && String.eqb (snd a) (snd b).

(** The value that a sequence of writes leaves under a key: the last
    one written there. *)
Fixpoint last_write {K V : Type} (eqb : K -> K -> bool) (k : K)
  (writes : list (K * V)) : option V :=
  match writes with
  | [] => None
  | (k', v) :: writes' =>
      match last_write eqb k writes' with
      | Some v' => Some v'
      | None => if eqb k k' then Some v else None
      end
  end.

Definition lookup_after {K V : Type} (eqb : K -> K -> bool)
  (writes : list (K * V)) (k : K) (before : option V) : option V :=
  match last_write eqb k writes with
  | Some v => Some v
  | None => before
  end.

(** [stats[outcome] = 1 + stats.get(outcome, 0)] *)
Definition count_outcome (stats : Dict.t Z) (outcome : string) : Dict.t Z :=
  Dict.set outcome (1 + Dict.get_default outcome 0%Z stats)%Z stats.

(** The sum of the counters. *)
Definition counter_total (stats : Dict.t Z) : Z :=
  fold_right Z.add 0%Z (map snd stats).

Record effect : Type := {
  counted : list string;
  case_writes : list (string * string * string * parser.Case);
  class_writes : list (string * string * parser.Class);
  warnings : list string
}.

Definition no_effect : effect :=
  {| counted := []; case_writes := []; class_writes := []; warnings := [] |}.

Definition effect_app (e1 e2 : effect) : effect :=
  {| counted := counted e1 ++ counted e2;
     case_writes := case_writes e1 ++ case_writes e2;
     class_writes := class_writes e1 ++ class_writes e2;
     warnings := warnings e1 ++ warnings e2 |}.

Definition effect_concat (es : list effect) : effect :=
  fold_right effect_app no_effect es.

Definition unrecognized (prop : parser.Property) : string :=
  "WARNING: Ignoring unrecognized property: " ++ parser.value prop.

Section Effects.

(** [axes]: the declared property axes; [filename]: the base name of the
    report. *)
Variable axes : list string.
Variable filename : string.

Definition property_effect (testclass basename : string)
  (testcase : parser.Case) (prop : parser.Property) : effect :=
  if contains (parser.value prop) axes then
    {| counted := [];
       case_writes := [(testclass, basename, parser.value prop, testcase)];
       class_writes := []; warnings := [] |}
  else
    {| counted := []; case_writes := []; class_writes := [];
       warnings := [unrecognized prop] |}.

Definition case_effect (testclass : string) (testcase : parser.Case) : effect :=
  let basename := str.strip (parser.basename testcase) in
  effect_app
    {| counted := [parser.outcome testcase];
       case_writes := [(testclass, basename, filename, testcase)];
       class_writes := []; warnings := [] |}
    (effect_concat
       (map (property_effect testclass basename testcase)
            (parser.properties testcase))).

Definition class_effect (suite : parser.Suite) (testclass : string) : effect :=
  match Dict.get testclass (parser.classes suite) with
  | Some subtree =>
      effect_app
        {| counted := []; case_writes := [];
           class_writes := [(testclass, filename, subtree)]; warnings := [] |}
        (effect_concat (map (case_effect testclass) (parser.cases subtree)))
  | None => no_effect
  end.

Definition suite_effect (suite : parser.Suite) : effect :=
  effect_concat
    (map (class_effect suite) (Dict.keys (parser.classes suite))).

Definition report_effect (parsed : parser.Junit) : effect :=
  effect_concat (map suite_effect (parser.suites parsed)).

End Effects.

(** The test cases of a report, one for each time the loops of
    [add_report] reach a case. *)
Definition suite_cases (suite : parser.Suite) : list parser.Case :=
  flat_map
    (fun testclass =>
       match Dict.get testclass (parser.classes suite) with
       | Some subtree => parser.cases subtree
       | None => []
       end)
    (Dict.keys (parser.classes suite)).

Definition report_cases (parsed : parser.Junit) : list parser.Case :=
  flat_map suite_cases (parser.suites parsed).

Definition run_cases (files : list (string * parser.Junit))
  : list parser.Case :=
  flat_map (fun file => report_cases (snd file)) files.

(** The number of cases of a list with a given outcome. *)
Definition count_with_outcome (outcome : string) (cs : list parser.Case) : Z :=
  Z.of_nat
    (length (filter (fun c => String.eqb (parser.outcome c) outcome) cs)).

(** [a] comes before [b] in the natural order: both have a key, and the
    key of [b] is not below the key of [a]. *)
Definition natural_le {u : str.Unicode} (a b : string) : Prop :=
  exists ka kb,
    natural_sort_key a = Ok ka /\ natural_sort_key b = Ok kb
    /\ key_lt kb ka = Ok false.

(** The same for two names in ASCII. *)
Definition ascii_natural_le (a b : string) : Prop :=
  key_lt (ascii_sort_key b) (ascii_sort_key a) = Ok false.

(** The outcomes of the axes of a row on which the case has a result. *)
Definition observed_results (of_case : Dict.t parser.Case)
  (axes : list string) : list string :=
  flat_map
    (fun axis =>
       match Dict.get axis of_case with
       | Some testcase => [parser.outcome testcase]
       | None => []
       end)
    axes.

(** [applies e self self']: the attributes [self'] are the attributes [self]
    after the effect [e]. The reports and the declared axes are the same,
    the outcomes of [e] have been counted one after the other, the entries
    of [e] have been written over those of [self], the warnings of [e] have
    been printed, and no class has left the case-name registry. *)
Definition applies (e : effect) (self self' : ReportMatrix) : Prop :=
  reports self' = reports self
  /\ Dict.keys (properties self') = Dict.keys (properties self)
  /\ result_stats self'
     = fold_left count_outcome (counted e) (result_stats self)
  /\ (forall c n a,
        lookup3 c n a (cases self')
        = lookup_after key3_eqb (case_writes e) (c, n, a)
            (lookup3 c n a (cases self)))
  /\ (forall c a,
        lookup2 c a (classes self')
        = lookup_after key2_eqb (class_writes e) (c, a)
            (lookup2 c a (classes self)))
  /\ stdout self' = stdout self ++ warnings e
  /\ (forall c, Dict.mem c (casenames self) = true ->
                Dict.mem c (casenames self') = true).

(** The case [basename] of [testclass] has an axis mapping in [self]. *)
Definition has_row (testclass basename : string) (self : ReportMatrix) : Prop :=
  exists of_class of_case,
    Dict.get testclass (cases self) = Some of_class
    /\ Dict.get basename of_class = Some of_case.

(** The effect of a run on a matrix with the property axes [axes]. *)
Definition run_effect (axes : list string)
  (files : list (string * parser.Junit)) : effect :=
  effect_concat
    (map (fun file =>
            report_effect axes (os_path.basename (fst file)) (snd file))
         files).

(** The reports mapping after a run. *)
Definition run_reports (files : list (string * parser.Junit))
  (before : Dict.t parser.Junit) : Dict.t parser.Junit :=
  fold_left
    (fun registered file =>
       Dict.set (os_path.basename (fst file)) (snd file) registered)
    files before.

(** The names [prefix + str(i)] for [i] in [range(1, count + 1)]. *)
Definition axis_names (prefix : string) (count : Z) : list string :=
  map (fun i => (prefix ++ str.of_int i)%string) (range_from_1 count).



(** ** Two databases of characters

    The examples whose names are in ASCII run with a database that knows
    no digit and no cased character outside ASCII. *)
Definition plain_ascii : str.Unicode :=
  {| str.unicode_isdigit := fun _ => false;
     str.unicode_int := fun _ => Raise ValueError;
     str.unicode_lower := fun s => s |}.

(** A database that knows one digit outside ASCII, the superscript two
    (U+00B2, the bytes 194 and 178 in UTF-8), which is a digit for
    [isdigit] and which [int] does not read. *)
Definition superscript_two : string :=
  String (ascii_of_nat 194) (String (ascii_of_nat 178) EmptyString).

Definition with_superscript_two : str.Unicode :=
  {| str.unicode_isdigit := fun s => String.eqb s superscript_two;
     str.unicode_int := fun _ => Raise ValueError;
     str.unicode_lower := fun s => s |}.

(** ** Two reports

    The scenario of two reports with the same case: in [report_A] the case
    [caseZ] of [classY] passed and declares the properties [REQ1] and
    [SRS9]; in [report_B] the same case failed and declares [REQ2]. *)

Definition case_A : parser.Case :=
  {| parser.basename := "caseZ"; parser.outcome := "passed";
     parser.properties :=
       [{| parser.value := "REQ1" |}; {| parser.value := "SRS9" |}];
     parser.anchor := "classY.caseZ-A" |}.

Definition case_B : parser.Case :=
  {| parser.basename := "caseZ"; parser.outcome := "failed";
     parser.properties := [{| parser.value := "REQ2" |}];
     parser.anchor := "classY.caseZ-B" |}.

Definition report_A : parser.Junit :=
  {| parser.suites :=
       [{| parser.classes := [("classY", {| parser.cases := [case_A] |})] |}]
  |}.

Definition report_B : parser.Junit :=
  {| parser.suites :=
       [{| parser.classes := [("classY", {| parser.cases := [case_B] |})] |}]
  |}.

Definition two_reports : list (string * parser.Junit) :=
  [("out/fileA.xml", report_A); ("out/fileB.xml", report_B)].

(** ** More vocabulary for runs *)

(** The reports of a run under the keys that [add_report] gives them. *)
Definition registered (files : list (string * parser.Junit))
  : list (string * parser.Junit) :=
  map (fun file => (os_path.basename (fst file), snd file)) files.

(** The class subtrees of a report with their names, and its cases with
    the names of their classes, in the order of the loops. *)
Definition suite_classes (suite : parser.Suite)
  : list (string * parser.Class) :=
  flat_map
    (fun testclass =>
       match Dict.get testclass (parser.classes suite) with
       | Some subtree => [(testclass, subtree)]
       | None => []
       end)
    (Dict.keys (parser.classes suite)).

Definition report_classes (parsed : parser.Junit)
  : list (string * parser.Class) :=
  flat_map suite_classes (parser.suites parsed).

Definition class_cases (entry : string * parser.Class)
  : list (string * parser.Case) :=
  map (fun testcase => (fst entry, testcase)) (parser.cases (snd entry)).

Definition report_class_cases (parsed : parser.Junit)
  : list (string * parser.Case) :=
  flat_map class_cases (report_classes parsed).

(** The properties that the cases of a run declare, in the order of the
    loops. *)
Definition run_properties (files : list (string * parser.Junit))
  : list parser.Property :=
  flat_map parser.properties (run_cases files).

(** Whether a path holds a slash. *)
Definition has_slash (p : string) : bool :=
  existsb (Ascii.eqb "/"%char) (list_ascii_of_string p).

(** ** HtmlReportMatrix.summary, the whole of it *)

(** The line feed. *)
Definition newline : string := String (ascii_of_nat 10) EmptyString.

(** [s.endswith(suffix)] and [s[:-n]]. *)
Definition endswith (s suffix : string) : bool :=
  (String.length suffix <=? String.length s)%nat
  && String.eqb
       (substring (String.length s - String.length suffix)
          (String.length suffix) s)
       suffix.

Definition drop_last (n : nat) (s : string) : string :=
  substring 0 (String.length s - n) s.

(** [set(xs)], the members in the order of their first occurrence. The
    order of a Python set is not defined, and the module sorts every set
    that it makes. *)
Fixpoint set_of (xs : list string) : list string :=
  match xs with
  | [] => []
  | x :: xs' => x :: filter (fun y => negb (String.eqb y x)) (set_of xs')
  end.

(** [sorted(xs)] for strings. *)
Definition sorted_strings (xs : list string) : result (list string) :=
  sorted_by (fun a b => Ok (str.ltb a b)) (fun x => x) xs.

(** One round of the loop of [get_stats_table]. *)
Definition stats_row (self : ReportMatrix) (stats outcome : string)
  : result string :=
  count <- getitem outcome (result_stats self) ;;
  Ok (stats ++ "<tr><th class='" ++ outcome ++ "'>Tests "
      ++ str.title outcome ++ "<th>" ++ "<td align='right'>"
      ++ str.of_int count ++ "</td></tr>")%string.

(** [get_stats_table(self)] *)
Definition get_stats_table (self : ReportMatrix) : result string :=
  outcomes <- sorted_strings (Dict.keys (result_stats self)) ;;
  stats <- for_each (stats_row self) outcomes "<table class='result-stats'>" ;;
  Ok (stats ++ "</table>")%string.

Section HtmlSummary.

Context {po : ParserOutcomes} {u : str.Unicode}.

(** [parser.HtmlHeadMixin.get_html_head], which the parser module
    defines, is a parameter. *)
Variable get_html_head : string -> string.

(** The body of [for classname in self.classes]: the text so far and the
    classes of the axes seen so far. *)
Definition summary_class (self : ReportMatrix)
  (state : string * Dict.t string) (classname : string)
  : result (string * Dict.t string) :=
  let output :=
    (fst state ++ "<tr class='testclass'><td colspan='"
     ++ str.of_int (Z.of_nat (length (properties self)) + 3) ++ "'>"
     ++ classname ++ "</td></tr>" ++ newline)%string in
  names <- getitem classname (casenames self) ;;
  casenames_sorted <- sorted_strings (set_of names) ;;
  for_each
    (fun state casename =>
       '(row, axis_classes) <-
         summary_row classname self (snd state) casename ;;
       Ok ((fst state ++ row)%string, axis_classes))
    casenames_sorted (output, snd state).

(** The body of the loop over the axes that writes the header; the
    variables [spansize], [report_headers] and [first_cell] of the source
    are written and never read. *)
Definition summary_header_cell (axis_classes : Dict.t string)
  (stats : string) (state : string * bool) (axis : string)
  : string * bool :=
  let label := if endswith axis ".xml" then drop_last 4 axis else axis in
  let cell :=
    ("<td class='" ++ Dict.get_default label "absent" axis_classes
     ++ "' colspan='1'><pre>" ++ label ++ "</pre></td>")%string in
  let header :=
    if negb (snd state) then (fst state ++ "<td>" ++ stats ++ "</td>")%string
    else fst state in
  ((header ++ cell)%string, true).

(** [HtmlReportMatrix.summary(self)] *)
Definition summary (self : ReportMatrix) : result string :=
  '(output, axis_classes) <-
    for_each (summary_class self) (Dict.keys (classes self))
      (EmptyString, Dict.empty) ;;
  let output := (output ++ "</table>" ++ "</body>" ++ "</html>")%string in
  let header :=
    (get_html_head EmptyString ++ "<body>"
     ++ "<h2>Reports Matrix</h2><hr size='1'/>"
     ++ "<table class='test-matrix'>")%string in
  stats <- get_stats_table self ;;
  let header := (header ++ "<tr>")%string in
  axes <- property_order self ;;
  let header :=
    fst (fold_left (summary_header_cell axis_classes stats) axes
           (header, false)) in
  Ok (header ++ "</tr>" ++ output)%string.

End HtmlSummary.

(** ** HtmlReportMatrix.add_report *)

(** [os.path.join(a, b)] (POSIX) *)
Definition os_path_join (a b : string) : string :=
  match b with
  | String "/"%char _ => b
  | _ =>
      if String.eqb a EmptyString || endswith a "/" then (a ++ b)%string
      else (a ++ "/" ++ b)%string
  end.

(** An instance of [HtmlReportMatrix]: the attributes of the base class and
    [outdir]. *)
Record HtmlReportMatrix : Type := {
  matrix : ReportMatrix;
  outdir : string
}.

(** [HtmlReportMatrix.__init__(self, outdir, prop_prefix, prop_count)] *)
Definition html_init (out : string) (prop_prefix : option string)
  (prop_count : Z) : HtmlReportMatrix :=
  {| matrix := init prop_prefix prop_count; outdir := out |}.

Section HtmlPages.

(** [parser.Junit.html], which the parser module defines, is a
    parameter. *)
Variable html : parser.Junit -> string.

(** [HtmlReportMatrix.add_report(self, filename)]. The files written are a
    dictionary from paths to contents; [open(path, "w")] followed by
    [write] replaces the content under the path, and the file system
    accepts every write. *)
Definition html_add_report (filename : string) (parsed : parser.Junit)
  (state : HtmlReportMatrix * Dict.t string)
  : result (HtmlReportMatrix * Dict.t string) :=
  let self := fst state in
  m <- add_report filename parsed (matrix self) ;;
  let self := {| matrix := m; outdir := outdir self |} in
  let basename := os_path.basename filename in
  registered_report <- getitem basename (reports (matrix self)) ;;
  let report := html registered_report in
  Ok (self,
      Dict.set (os_path_join (outdir self) basename ++ ".html") report
        (snd state)).

Definition html_add_reports (files : list (string * parser.Junit))
  (state : HtmlReportMatrix * Dict.t string)
  : result (HtmlReportMatrix * Dict.t string) :=
  for_each (fun state file => html_add_report (fst file) (snd file) state)
    files state.

End HtmlPages.

(** ** TextReportMatrix.summary *)

(** [len(s)], the number of characters of the model: of a text in ASCII,
    the number of its code points. *)
Definition len (s : string) : Z := Z.of_nat (String.length s).

(** [c * n] for a string [c] of one character: empty for [n <= 0]. *)
Definition times (c : ascii) (n : Z) : string :=
  string_of_list_ascii (repeat c (Z.to_nat n)).

(** ["{:<w}".format(s)] and ["{:>w}".format(s)] *)
Definition ljust (width : Z) (s : string) : string :=
  (s ++ times " " (width - len s))%string.

Definition rjust (width : Z) (s : string) : string :=
  (times " " (width - len s) ++ s)%string.

Section TextSummary.

Context {po : ParserOutcomes} {u : str.Unicode}.

(** The truth of [testcase.skipped] and of [testcase.failure], attributes
    of [parser.Case], are parameters. *)
Variable skipped : parser.Case -> bool.
Variable failure : parser.Case -> bool.

(** The body of the loop that finds the longest class or case name. *)
Definition text_indent_class (self : ReportMatrix) (left_indent : Z)
  (classname : string) : result Z :=
  let left_indent := Z.max (len classname) left_indent in
  names <- getitem classname (casenames self) ;;
  Ok (fold_left
        (fun left_indent casename => Z.max (len casename) left_indent)
        names left_indent).

(** The label of a row, and the indentation of the headings above it. *)
Definition text_row_label (left_indent : Z) (casename : string) : string :=
  ("- " ++ casename ++ times " " (left_indent - len casename) ++ "  ")%string.

Definition text_heading_indent (left_indent : Z) : string :=
  (times " " left_indent ++ "    ")%string.

(** The body of the loop that writes the headings of the axes: the text
    and the tree lines so far. *)
Definition text_heading (left_indent : Z) (state : string * string)
  (filename : string) : string * string :=
  ((fst state ++ text_heading_indent left_indent ++ snd state ++ filename
    ++ newline)%string,
   (snd state ++ "| ")%string).

(** The body of the loop over the axes of a row: the cells and the
    results so far. *)
Definition text_cell (classname casename : string) (self : ReportMatrix)
  (state : string * list string) (axis : string)
  : result (string * list string) :=
  of_class <- getitem classname (cases self) ;;
  of_case <- getitem casename of_class ;;
  if negb (Dict.mem axis of_case) then Ok ((fst state ++ "  ")%string, snd state)
  else
    testcase <- getitem axis of_case ;;
    if skipped testcase then
      Ok ((fst state ++ "s ")%string, snd state ++ [SKIPPED])
    else if failure testcase then
      Ok ((fst state ++ "f ")%string, snd state ++ [FAILED])
    else Ok ((fst state ++ "/ ")%string, snd state ++ [PASSED]).

(** The body of the loop over the case names of a class. *)
Definition text_row (self : ReportMatrix) (left_indent : Z)
  (classname : string) (output : string) (casename : string)
  : result string :=
  let output := (output ++ text_row_label left_indent casename)%string in
  axes <- property_order self ;;
  cells <-
    for_each (text_cell classname casename self) axes (EmptyString, []) ;;
  let combined := combined_result TextReportMatrix_class (snd cells) in
  Ok (output ++ fst cells
      ++ (" " ++ fst combined ++ " " ++ snd combined ++ newline))%string.

(** The body of the loop over the classes. *)
Definition text_class (self : ReportMatrix) (left_indent : Z)
  (output : string) (classname : string) : result string :=
  let output := (output ++ (classname ++ "  " ++ newline))%string in
  names <- getitem classname (casenames self) ;;
  casenames_sorted <- sorted_strings (set_of names) ;;
  for_each (text_row self left_indent classname) casenames_sorted output.

(** The body of the loop over the counters. *)
Definition text_stats_row (self : ReportMatrix) (output outcome : string)
  : result string :=
  count <- getitem outcome (result_stats self) ;;
  Ok (output
      ++ ("  " ++ ljust 12 (str.title outcome) ++ " : "
          ++ rjust 6 (str.of_int count) ++ newline))%string.

(** [TextReportMatrix.summary(self)]. The sorted list of the keys of
    [reports], which the source makes and never reads, is left out, and so
    is the attribute [self.append], which the loop sets to [None]. *)
Definition text_summary (self : ReportMatrix) : result string :=
  let output :=
    (newline ++ "Matrix Test Report" ++ newline
     ++ "===================" ++ newline)%string in
  left_indent <-
    for_each (text_indent_class self) (Dict.keys (classes self)) 0%Z ;;
  axes <- property_order self ;;
  let headings := fold_left (text_heading left_indent) axes (output, EmptyString) in
  let output :=
    (fst headings ++ (text_heading_indent left_indent ++ snd headings
                      ++ newline))%string in
  output <-
    for_each (text_class self left_indent) (Dict.keys (classes self)) output ;;
  let output :=
    (output ++ newline ++ times "-" 79 ++ newline
     ++ ("Test Results:" ++ newline))%string in
  outcomes <- sorted_strings (Dict.keys (result_stats self)) ;;
  for_each (text_stats_row self) outcomes output.

End TextSummary.

(** ** The classes of the axes in the header of the HTML page *)

Section HeaderClasses.

Context {po : ParserOutcomes}.




End HeaderClasses.




(** ** The cases of a property axis *)

(** A case, once for each of its properties that names the axis. *)
Definition naming_case (axis : string) (testcase : parser.Case)
  : list parser.Case :=
  flat_map
    (fun p => if String.eqb (parser.value p) axis then [testcase] else [])
    (parser.properties testcase).

Definition naming (axis : string) (cs : list parser.Case)
  : list parser.Case :=
  flat_map (naming_case axis) cs.

(** [collects l self self']: every declared axis holds in [self'] the cases
    that it held in [self], followed by the cases [l axis]. *)
Definition collects (l : string -> list parser.Case)
  (self self' : ReportMatrix) : Prop :=
  forall axis old,
    Dict.get axis (properties self) = Some old ->
    Dict.get axis (properties self') = Some (old ++ l axis).

(** ** What the renderers rely on *)

(** Every class of [classes] has a list of case names, every registered
    case name has a row in [cases] with an entry, and a matrix with a class
    has a report. *)
Definition classes_have_names (self : ReportMatrix) : Prop :=
  forall c, Dict.mem c (classes self) = true ->
            Dict.mem c (casenames self) = true.

Definition names_have_rows (self : ReportMatrix) : Prop :=
  forall c names n,
    Dict.get c (casenames self) = Some names -> In n names ->
    exists a v, lookup3 c n a (cases self) = Some v.

Definition consistent (self : ReportMatrix) : Prop :=
  classes_have_names self /\ names_have_rows self.

(** * Properties *)

(** ** The exception monad and the containers *)

Lemma bind_Ok {A B : Type} (c : result A) (k : A -> result B) (b : B) :
  bind c k = Ok b -> exists a, c = Ok a /\ k a = Ok b.
Proof.
  destruct c as [a | e]; simpl; intros H; [eauto | discriminate].
Qed.

Lemma contains_In (x : string) (xs : list string) :
  contains x xs = true <-> In x xs.
Proof.
  unfold contains. rewrite existsb_exists. split.
  - intros [y [Hy Heq]]. apply String.eqb_eq in Heq. now subst.
  - intros H. exists x. split; [assumption | apply String.eqb_refl].
Qed.

Lemma contains_not_In (x : string) (xs : list string) :
  contains x xs = false <-> ~ In x xs.
Proof.
  rewrite <- contains_In. destruct (contains x xs); split; intros H;
    try reflexivity; try discriminate; try (intros H'; discriminate).
  exfalso. now apply H.
Qed.

Lemma pairwise_distinct_NoDup (xs : list string) :
  pairwise_distinct xs = true -> NoDup xs.
Proof.
  induction xs as [| x xs IH]; simpl; intros H.
  - constructor.
  - apply andb_prop in H. destruct H as [Hx Hxs]. constructor.
    + apply contains_not_In. now destruct (contains x xs).
    + now apply IH.
Qed.

Module DictFacts.

Lemma get_set_same {V : Type} (k : string) (v : V) (d : Dict.t V) :
  Dict.get k (Dict.set k v d) = Some v.
Proof.
  induction d as [| [k' v'] d IH]; simpl.
  - now rewrite String.eqb_refl.
  - destruct (String.eqb k k') eqn:E; simpl; rewrite E; [reflexivity | exact IH].
Qed.

Lemma get_set_other {V : Type} (k k0 : string) (v : V) (d : Dict.t V) :
  k0 <> k -> Dict.get k0 (Dict.set k v d) = Dict.get k0 d.
Proof.
  intros Hne. induction d as [| [k' v'] d IH]; simpl.
  - apply String.eqb_neq in Hne. now rewrite Hne.
  - destruct (String.eqb k k') eqn:E; simpl.
    + apply String.eqb_eq in E. subst k'.
      apply String.eqb_neq in Hne. now rewrite Hne.
    + now rewrite IH.
Qed.

Lemma get_set {V : Type} (k k0 : string) (v : V) (d : Dict.t V) :
  Dict.get k0 (Dict.set k v d)
  = if String.eqb k0 k then Some v else Dict.get k0 d.
Proof.
  destruct (String.eqb k0 k) eqn:E.
  - apply String.eqb_eq in E. subst. apply get_set_same.
  - apply String.eqb_neq in E. now apply get_set_other.
Qed.

Lemma mem_get {V : Type} (k : string) (d : Dict.t V) :
  Dict.mem k d = true -> exists v, Dict.get k d = Some v.
Proof.
  unfold Dict.mem. destruct (Dict.get k d) as [v |]; [eauto | discriminate].
Qed.

Lemma mem_In_keys {V : Type} (k : string) (d : Dict.t V) :
  Dict.mem k d = true <-> In k (Dict.keys d).
Proof.
  unfold Dict.mem. induction d as [| [k' v'] d IH]; simpl.
  - split; [discriminate | tauto].
  - destruct (String.eqb k k') eqn:E.
    + apply String.eqb_eq in E. subst. split; auto.
    + apply String.eqb_neq in E. rewrite IH. split; [auto | ].
      intros [H | H]; [congruence | assumption].
Qed.

(** Assigning to a key that is present leaves the keys as they are. *)
Lemma keys_set_mem {V : Type} (k : string) (v : V) (d : Dict.t V) :
  Dict.mem k d = true -> Dict.keys (Dict.set k v d) = Dict.keys d.
Proof.
  unfold Dict.mem. induction d as [| [k' v'] d IH]; simpl.
  - discriminate.
  - destruct (String.eqb k k') eqn:E; simpl; [reflexivity |].
    intros H. now rewrite IH.
Qed.

(** Assigning to a new key appends it. *)
Lemma keys_set_new {V : Type} (k : string) (v : V) (d : Dict.t V) :
  Dict.mem k d = false -> Dict.keys (Dict.set k v d) = Dict.keys d ++ [k].
Proof.
  unfold Dict.mem. induction d as [| [k' v'] d IH]; simpl.
  - reflexivity.
  - destruct (String.eqb k k') eqn:E; simpl; [discriminate |].
    intros H. now rewrite IH.
Qed.

Lemma keys_set {V : Type} (k : string) (v : V) (d : Dict.t V) :
  Dict.keys (Dict.set k v d)
  = if Dict.mem k d then Dict.keys d else Dict.keys d ++ [k].
Proof.
  destruct (Dict.mem k d) eqn:E;
    [now apply keys_set_mem | now apply keys_set_new].
Qed.

Lemma mem_set {V : Type} (k k0 : string) (v : V) (d : Dict.t V) :
  Dict.mem k0 (Dict.set k v d) = String.eqb k0 k || Dict.mem k0 d.
Proof.
  unfold Dict.mem. rewrite get_set. now destruct (String.eqb k0 k).
Qed.

End DictFacts.

Lemma getitem_Ok {V : Type} (k : string) (d : Dict.t V) (v : V) :
  getitem k d = Ok v <-> Dict.get k d = Some v.
Proof.
  unfold getitem. destruct (Dict.get k d); split; congruence.
Qed.

Lemma getitem_set_same {V : Type} (k : string) (v : V) (d : Dict.t V) :
  getitem k (Dict.set k v d) = Ok v.
Proof.
  unfold getitem. now rewrite DictFacts.get_set_same.
Qed.

Lemma getitem_mem {V : Type} (k : string) (d : Dict.t V) :
  Dict.mem k d = true -> exists v, getitem k d = Ok v.
Proof.
  intros H. destruct (DictFacts.mem_get _ _ H) as [v Hv].
  exists v. now apply getitem_Ok.
Qed.

(** ** The outcome combinator *)

Section OutcomeFacts.

Context {po : ParserOutcomes}.

Lemma derived_not_elementary :
  distinct_outcomes = true ->
  forall d e,
    In d [UNTESTED; PARTIAL_PASS; PARTIAL_FAIL; TOTAL_FAIL] ->
    In e [PASSED; SKIPPED; FAILED; ABSENT] ->
    String.eqb d e = false.
Proof.
  intros H d e Hd He. apply String.eqb_neq. intros Heq. subst e.
  apply pairwise_distinct_NoDup in H.
  change (NoDup ([PASSED; SKIPPED; FAILED; ABSENT]
                 ++ [UNTESTED; PARTIAL_PASS; PARTIAL_FAIL; TOTAL_FAIL])) in H.
  revert d Hd He. clear -H.
  induction [PASSED; SKIPPED; FAILED; ABSENT] as [| x l IH]; simpl in *.
  - tauto.
  - inversion H as [| ? ? Hx Hl]; subst. intros d Hd [-> | He].
    + apply Hx. apply in_or_app. now right.
    + now apply (IH Hl d).
Qed.

Lemma short_outcome_derived (cls : matrix_class) :
  distinct_outcomes = true ->
  short_outcome cls PARTIAL_FAIL = "X"
  /\ short_outcome cls PARTIAL_PASS = "%"
  /\ short_outcome cls TOTAL_FAIL = "F"
  /\ short_outcome cls UNTESTED = "U".
Proof.
  intros H.
  pose proof (derived_not_elementary H) as D.
  assert (E : forall d, In d [UNTESTED; PARTIAL_PASS; PARTIAL_FAIL; TOTAL_FAIL] ->
              short_outcome cls d = base_short_outcome d
              /\ base_short_outcome d
                 = if String.eqb d TOTAL_FAIL then "F"
                   else if String.eqb d PARTIAL_PASS then "%"
                   else if String.eqb d PARTIAL_FAIL then "X"
                   else if String.eqb d UNTESTED then "U" else "?").
  { intros d Hd. unfold short_outcome, base_short_outcome.
    rewrite (D d PASSED), (D d SKIPPED), (D d FAILED) by (simpl; auto).
    now destruct cls. }
  repeat split.
  - destruct (E PARTIAL_FAIL) as [-> ->]; simpl; auto.
  - destruct (E PARTIAL_PASS) as [-> ->]; simpl; auto.
  - destruct (E TOTAL_FAIL) as [-> ->]; simpl; auto.
  - destruct (E UNTESTED) as [-> ->]; simpl; auto.
Qed.

Lemma short_outcome_PASSED (cls : matrix_class) :
  short_outcome cls PASSED
  = match cls with HtmlReportMatrix_class => "ok" | _ => "/" end.
Proof.
  unfold short_outcome, base_short_outcome. rewrite String.eqb_refl.
  now destruct cls.
Qed.

(** The combinator reads its argument only through three membership
    tests. *)
Lemma combined_result_ext (cls : matrix_class) (rs rs' : list string) :
  (forall o, In o [PASSED; FAILED; SKIPPED] -> In o rs <-> In o rs') ->
  combined_result cls rs = combined_result cls rs'.
Proof.
  intros H.
  assert (E : forall o, In o [PASSED; FAILED; SKIPPED] ->
              contains o rs = contains o rs').
  { intros o Ho. specialize (H o Ho).
    destruct (contains o rs) eqn:E1, (contains o rs') eqn:E2; try reflexivity.
    - apply contains_In in E1. apply H in E1. apply contains_In in E1. congruence.
    - apply contains_In in E2. apply H in E2. apply contains_In in E2. congruence. }
  unfold combined_result.
  rewrite (E PASSED), (E FAILED), (E SKIPPED) by (simpl; auto).
  reflexivity.
Qed.

End OutcomeFacts.

(** ** Ingestion *)

Lemma last_write_app {K V : Type} (eqb : K -> K -> bool) (k : K)
  (w1 w2 : list (K * V)) :
  last_write eqb k (w1 ++ w2)
  = match last_write eqb k w2 with
    | Some v => Some v
    | None => last_write eqb k w1
    end.
Proof.
  induction w1 as [| [k' v] w1 IH]; simpl.
  - now destruct (last_write eqb k w2).
  - rewrite IH. now destruct (last_write eqb k w2).
Qed.

Lemma lookup_after_app {K V : Type} (eqb : K -> K -> bool) (k : K)
  (w1 w2 : list (K * V)) (before : option V) :
  lookup_after eqb (w1 ++ w2) k before
  = lookup_after eqb w2 k (lookup_after eqb w1 k before).
Proof.
  unfold lookup_after. rewrite last_write_app.
  now destruct (last_write eqb k w2).
Qed.

(** Writing the same entries a second time changes nothing. *)
Lemma lookup_after_idempotent {K V : Type} (eqb : K -> K -> bool) (k : K)
  (w : list (K * V)) (before : option V) :
  lookup_after eqb w k (lookup_after eqb w k before)
  = lookup_after eqb w k before.
Proof.
  unfold lookup_after. now destruct (last_write eqb k w).
Qed.

Lemma lookup2_set {V : Type} (k1 k2 c a : string) (v : V) (inner : Dict.t V)
  (d : Dict.t (Dict.t V)) :
  Dict.get k1 d = Some inner ->
  lookup2 c a (Dict.set k1 (Dict.set k2 v inner) d)
  = if key2_eqb (c, a) (k1, k2) then Some v else lookup2 c a d.
Proof.
  intros H. unfold lookup2, key2_eqb. simpl.
  rewrite DictFacts.get_set. destruct (String.eqb c k1) eqn:E; simpl.
  - apply String.eqb_eq in E. subst c. rewrite H, DictFacts.get_set.
    reflexivity.
  - reflexivity.
Qed.

Lemma lookup3_set {V : Type} (k1 k2 k3 c n a : string) (v : V)
  (of_case : Dict.t V) (of_class : Dict.t (Dict.t V))
  (d : Dict.t (Dict.t (Dict.t V))) :
  Dict.get k1 d = Some of_class ->
  Dict.get k2 of_class = Some of_case ->
  lookup3 c n a
    (Dict.set k1 (Dict.set k2 (Dict.set k3 v of_case) of_class) d)
  = if key3_eqb (c, n, a) (k1, k2, k3) then Some v else lookup3 c n a d.
Proof.
  intros H1 H2. unfold lookup3, key3_eqb, key2_eqb. simpl.
  rewrite DictFacts.get_set. destruct (String.eqb c k1) eqn:E; simpl.
  - apply String.eqb_eq in E. subst c. rewrite H1.
    rewrite (lookup2_set k2 k3 n a v of_case of_class H2).
    reflexivity.
  - reflexivity.
Qed.

(** A new, empty mapping answers no lookup. *)
Lemma lookup3_new_class {V : Type} (k1 c n a : string)
  (d : Dict.t (Dict.t (Dict.t V))) :
  Dict.mem k1 d = false ->
  lookup3 c n a (Dict.set k1 Dict.empty d) = lookup3 c n a d.
Proof.
  unfold Dict.mem, lookup3. intros H. rewrite DictFacts.get_set.
  destruct (String.eqb c k1) eqn:E; [| reflexivity].
  apply String.eqb_eq in E. subst c.
  destruct (Dict.get k1 d); [discriminate | reflexivity].
Qed.

Lemma lookup3_new_case {V : Type} (k1 k2 c n a : string)
  (of_class : Dict.t (Dict.t V)) (d : Dict.t (Dict.t (Dict.t V))) :
  Dict.get k1 d = Some of_class ->
  Dict.mem k2 of_class = false ->
  lookup3 c n a (Dict.set k1 (Dict.set k2 Dict.empty of_class) d)
  = lookup3 c n a d.
Proof.
  unfold Dict.mem, lookup3, lookup2. intros H1 H2. rewrite DictFacts.get_set.
  destruct (String.eqb c k1) eqn:E; [| reflexivity].
  apply String.eqb_eq in E. subst c. rewrite H1, DictFacts.get_set.
  destruct (String.eqb n k2) eqn:E2; [| reflexivity].
  apply String.eqb_eq in E2. subst n.
  destruct (Dict.get k2 of_class); [discriminate | reflexivity].
Qed.

Lemma lookup2_new {V : Type} (k1 c a : string) (d : Dict.t (Dict.t V)) :
  Dict.mem k1 d = false ->
  lookup2 c a (Dict.set k1 Dict.empty d) = lookup2 c a d.
Proof.
  unfold Dict.mem, lookup2. intros H. rewrite DictFacts.get_set.
  destruct (String.eqb c k1) eqn:E; [| reflexivity].
  apply String.eqb_eq in E. subst c.
  destruct (Dict.get k1 d); [discriminate | reflexivity].
Qed.

Lemma applies_refl (self : ReportMatrix) : applies no_effect self self.
Proof.
  unfold applies, lookup_after. simpl. rewrite app_nil_r. auto 10.
Qed.

Lemma applies_trans (e1 e2 : effect) (s1 s2 s3 : ReportMatrix) :
  applies e1 s1 s2 -> applies e2 s2 s3 -> applies (effect_app e1 e2) s1 s3.
Proof.
  intros (R1 & P1 & S1 & C1 & K1 & O1 & N1) (R2 & P2 & S2 & C2 & K2 & O2 & N2).
  unfold applies. simpl. repeat split.
  - congruence.
  - congruence.
  - now rewrite fold_left_app, <- S1.
  - intros c n a. now rewrite lookup_after_app, <- C1.
  - intros c a. now rewrite lookup_after_app, <- K1.
  - now rewrite app_assoc, <- O1.
  - auto.
Qed.

(** A loop whose body has an effect has the effects of its rounds, one
    after the other. [I] is what the body needs and keeps. *)
Lemma for_each_applies {A : Type}
  (body : ReportMatrix -> A -> result ReportMatrix) (eff : A -> effect)
  (I : ReportMatrix -> Prop) (xs : list A) :
  (forall s x, In x xs -> I s ->
     exists s', body s x = Ok s' /\ applies (eff x) s s' /\ I s') ->
  forall s, I s ->
    exists s', for_each body xs s = Ok s'
               /\ applies (effect_concat (map eff xs)) s s' /\ I s'.
Proof.
  induction xs as [| x xs IH]; intros Hbody s Hs; simpl.
  - exists s. auto using applies_refl.
  - destruct (Hbody s x (or_introl eq_refl) Hs) as (s1 & E1 & A1 & I1).
    destruct (IH (fun s x H => Hbody s x (or_intror H)) s1 I1)
      as (s2 & E2 & A2 & I2).
    exists s2. rewrite E1. simpl. eauto using applies_trans.
Qed.

#[local] Arguments Z.add : simpl never.

Lemma mem_contains_keys {V : Type} (k : string) (d : Dict.t V) :
  Dict.mem k d = contains k (Dict.keys d).
Proof.
  destruct (contains k (Dict.keys d)) eqn:E.
  - apply DictFacts.mem_In_keys. now apply contains_In.
  - destruct (Dict.mem k d) eqn:M; [| reflexivity].
    apply DictFacts.mem_In_keys, contains_In in M. congruence.
Qed.

Lemma add_property_applies (testclass basename : string)
  (testcase : parser.Case) (self : ReportMatrix) (prop : parser.Property) :
  has_row testclass basename self ->
  exists self',
    add_property testclass basename testcase self prop = Ok self'
    /\ applies (property_effect (Dict.keys (properties self)) testclass
                  basename testcase prop) self self'
    /\ has_row testclass basename self'.
Proof.
  intros (of_class & of_case & Hc & Hn).
  unfold add_property, property_effect.
  rewrite <- mem_contains_keys.
  destruct (Dict.mem (parser.value prop) (properties self)) eqn:M; simpl.
  - destruct (DictFacts.mem_get _ _ M) as [tests Ht].
    unfold getitem. rewrite Ht, Hc. simpl. rewrite Hn. simpl.
    eexists. split; [reflexivity |]. split.
    + unfold applies, lookup_after. simpl. repeat split; auto.
      * now apply DictFacts.keys_set_mem.
      * intros c n a. rewrite (lookup3_set _ _ _ _ _ _ _ _ _ _ Hc Hn).
        now destruct (key3_eqb _ _).
      * now rewrite app_nil_r.
    + unfold has_row. simpl. do 2 eexists.
      split; [apply DictFacts.get_set_same | apply DictFacts.get_set_same].
  - eexists. split; [reflexivity |]. split.
    + unfold applies, lookup_after. simpl. repeat split; auto.
    + exists of_class, of_case. simpl. auto.
Qed.

Lemma add_case_applies (filename testclass : string) (self : ReportMatrix)
  (testcase : parser.Case) :
  Dict.mem testclass (casenames self) = true ->
  exists self',
    add_case filename testclass self testcase = Ok self'
    /\ applies (case_effect (Dict.keys (properties self)) filename testclass
                  testcase) self self'
    /\ Dict.mem testclass (casenames self') = true.
Proof.
  intros Hnames. unfold add_case, case_effect.
  set (basename := str.strip (parser.basename testcase)).
  (* the case-name registry *)
  assert (H1 : exists s1,
             (if negb (Dict.mem basename (casenames self))
              then names <- getitem testclass (casenames self) ;;
                   Ok (set_casenames
                         (Dict.set testclass (names ++ [basename])
                            (casenames self)) self)
              else Ok self) = Ok s1
             /\ applies no_effect self s1
             /\ Dict.mem testclass (casenames s1) = true).
  { destruct (Dict.mem basename (casenames self)); simpl.
    - exists self. auto using applies_refl.
    - destruct (getitem_mem _ _ Hnames) as [names ->]. simpl.
      eexists. split; [reflexivity |]. split.
      + unfold applies, lookup_after. simpl. rewrite app_nil_r.
        repeat split; auto.
        intros c Hc. rewrite DictFacts.mem_set, Hc. apply orb_true_r.
      + simpl. rewrite DictFacts.mem_set, String.eqb_refl. reflexivity. }
  destruct H1 as (s1 & -> & A1 & N1). simpl.
  (* the mapping of the class *)
  set (s2 := if negb (Dict.mem testclass (cases s1))
             then set_cases (Dict.set testclass Dict.empty (cases s1)) s1
             else s1).
  assert (A2 : applies no_effect s1 s2).
  { subst s2. destruct (Dict.mem testclass (cases s1)) eqn:M; simpl.
    - apply applies_refl.
    - unfold applies, lookup_after. simpl. rewrite app_nil_r.
      repeat split; auto. intros c n a. now apply lookup3_new_class. }
  assert (M2 : exists of_class, Dict.get testclass (cases s2) = Some of_class).
  { subst s2. destruct (Dict.mem testclass (cases s1)) eqn:M; simpl.
    - now apply DictFacts.mem_get.
    - eexists. apply DictFacts.get_set_same. }
  assert (N2 : Dict.mem testclass (casenames s2) = true).
  { subst s2. now destruct (Dict.mem testclass (cases s1)). }
  clearbody s2. destruct M2 as [of_class Hc].
  unfold getitem at 1. rewrite Hc. simpl.
  (* the mapping of the case *)
  set (s3 := if negb (Dict.mem basename of_class)
             then set_cases
                    (Dict.set testclass (Dict.set basename Dict.empty of_class)
                       (cases s2)) s2
             else s2).
  assert (A3 : applies no_effect s2 s3).
  { subst s3. destruct (Dict.mem basename of_class) eqn:M; simpl.
    - apply applies_refl.
    - unfold applies, lookup_after. simpl. rewrite app_nil_r.
      repeat split; auto. intros c n a. now apply lookup3_new_case. }
  assert (M3 : has_row testclass basename s3).
  { subst s3. unfold has_row.
    destruct (Dict.mem basename of_class) eqn:M; simpl.
    - destruct (DictFacts.mem_get _ _ M) as [of_case Hn]. eauto.
    - do 2 eexists.
      split; [apply DictFacts.get_set_same | apply DictFacts.get_set_same]. }
  assert (N3 : Dict.mem testclass (casenames s3) = true).
  { subst s3. now destruct (Dict.mem basename of_class). }
  clearbody s3. destruct M3 as (of_class' & of_case & Hc' & Hn').
  unfold getitem at 1 2. rewrite Hc'. simpl. rewrite Hn'. simpl.
  (* the entry of the report, the counter and the properties *)
  match goal with
  | |- exists s, for_each _ _ ?x = _ /\ _ /\ _ =>
      set (s4 := x);
      assert (A4 : applies
                     {| counted := [parser.outcome testcase];
                        case_writes :=
                          [(testclass, basename, filename, testcase)];
                        class_writes := []; warnings := [] |} s3 s4);
      [| assert (M4 : has_row testclass basename s4
                      /\ Dict.keys (properties s4)
                         = Dict.keys (properties self)
                      /\ Dict.mem testclass (casenames s4) = true) ]
  end.
  { unfold applies, lookup_after. subst s4. simpl. rewrite app_nil_r.
    repeat split; auto.
    intros c n a. rewrite (lookup3_set _ _ _ _ _ _ _ _ _ _ Hc' Hn').
    now destruct (key3_eqb _ _). }
  { subst s4. simpl. split; [| split].
    - unfold has_row. simpl. do 2 eexists.
      split; [apply DictFacts.get_set_same | apply DictFacts.get_set_same].
    - destruct A1 as (_ & P1 & _), A2 as (_ & P2 & _), A3 as (_ & P3 & _).
      congruence.
    - exact N3. }
  clearbody s4.
  destruct (for_each_applies
              (add_property testclass basename testcase)
              (property_effect (Dict.keys (properties self)) testclass
                 basename testcase)
              (fun s => has_row testclass basename s
                        /\ Dict.keys (properties s)
                           = Dict.keys (properties self)
                        /\ Dict.mem testclass (casenames s) = true))
    with (xs := parser.properties testcase) (s := s4)
    as (s5 & E5 & A5 & I5).
  { intros s x _ (Hrow & Hkeys & Hmem).
    destruct (add_property_applies testclass basename testcase s x Hrow)
      as (s' & E & A & R).
    exists s'. rewrite <- Hkeys.
    split; [exact E |]. split; [exact A |]. split; [exact R |].
    destruct A as (_ & P & _ & _ & _ & _ & N). split; [| now apply N].
    congruence. }
  { exact M4. }
  exists s5. split; [exact E5 |]. split; [| apply I5].
  assert (A : applies (effect_app no_effect (effect_app no_effect
              (effect_app no_effect (effect_app
                 {| counted := [parser.outcome testcase];
                    case_writes :=
                      [(testclass, basename, filename, testcase)];
                    class_writes := []; warnings := [] |}
                 (effect_concat
                    (map (property_effect (Dict.keys (properties self))
                            testclass basename testcase)
                         (parser.properties testcase)))))))
              self s5)
    by eauto using applies_trans.
  exact A.
Qed.

Lemma add_class_applies (filename : string) (suite : parser.Suite)
  (self : ReportMatrix) (testclass : string) :
  In testclass (Dict.keys (parser.classes suite)) ->
  exists self',
    add_class filename suite self testclass = Ok self'
    /\ applies (class_effect (Dict.keys (properties self)) filename suite
                  testclass) self self'.
Proof.
  intros Hin. unfold add_class, class_effect.
  apply DictFacts.mem_In_keys in Hin.
  destruct (DictFacts.mem_get _ _ Hin) as [subtree Hsub].
  unfold getitem at 2. rewrite Hsub.
  set (s1 := if negb (Dict.mem testclass (classes self))
             then set_classes (Dict.set testclass Dict.empty (classes self))
                    self
             else self).
  assert (A1 : applies no_effect self s1).
  { subst s1. destruct (Dict.mem testclass (classes self)) eqn:M; simpl.
    - apply applies_refl.
    - unfold applies, lookup_after. simpl. rewrite app_nil_r.
      repeat split; auto. intros c a. now apply lookup2_new. }
  assert (M1 : exists of_class,
             Dict.get testclass (classes s1) = Some of_class).
  { subst s1. destruct (Dict.mem testclass (classes self)) eqn:M; simpl.
    - now apply DictFacts.mem_get.
    - eexists. apply DictFacts.get_set_same. }
  clearbody s1.
  set (s2 := if negb (Dict.mem testclass (casenames s1))
             then set_casenames (Dict.set testclass [] (casenames s1)) s1
             else s1).
  assert (A2 : applies no_effect s1 s2).
  { subst s2. destruct (Dict.mem testclass (casenames s1)) eqn:M; simpl.
    - apply applies_refl.
    - unfold applies, lookup_after. simpl. rewrite app_nil_r.
      repeat split; auto.
      intros c Hc. rewrite DictFacts.mem_set, Hc. apply orb_true_r. }
  assert (M2 : exists of_class,
             Dict.get testclass (classes s2) = Some of_class).
  { subst s2. now destruct (Dict.mem testclass (casenames s1)). }
  assert (N2 : Dict.mem testclass (casenames s2) = true).
  { subst s2. destruct (Dict.mem testclass (casenames s1)) eqn:M; simpl.
    - exact M.
    - rewrite DictFacts.mem_set, String.eqb_refl. reflexivity. }
  clearbody s2. destruct M2 as [of_class Hc].
  unfold getitem at 1. rewrite Hc.
  cbn [bind classes set_classes]. rewrite getitem_set_same.
  cbn [bind]. rewrite getitem_set_same. cbn [bind].
  match goal with
  | |- exists s, for_each _ _ ?x = _ /\ _ =>
      set (s3 := x);
      assert (A3 : applies
                     {| counted := []; case_writes := [];
                        class_writes := [(testclass, filename, subtree)];
                        warnings := [] |} s2 s3)
  end.
  { unfold applies, lookup_after. subst s3. simpl. rewrite app_nil_r.
    repeat split; auto.
    intros c a. rewrite (lookup2_set _ _ _ _ _ _ _ Hc).
    now destruct (key2_eqb _ _). }
  assert (K3 : Dict.keys (properties s3) = Dict.keys (properties self)).
  { destruct A1 as (_ & P1 & _), A2 as (_ & P2 & _), A3 as (_ & P3 & _).
    congruence. }
  assert (N3 : Dict.mem testclass (casenames s3) = true) by exact N2.
  clearbody s3.
  destruct (for_each_applies
              (add_case filename testclass)
              (case_effect (Dict.keys (properties self)) filename testclass)
              (fun s => Dict.keys (properties s)
                        = Dict.keys (properties self)
                        /\ Dict.mem testclass (casenames s) = true)
              (parser.cases subtree))
    with (s := s3) as (s4 & E4 & A4 & I4).
  { intros s x _ (Hkeys & Hmem).
    destruct (add_case_applies filename testclass s x Hmem)
      as (s' & E & A & N).
    exists s'. rewrite <- Hkeys.
    split; [exact E |]. split; [exact A |]. split; [| exact N].
    destruct A as (_ & P & _). congruence. }
  { auto. }
  exists s4. split; [exact E4 |].
  assert (A : applies (effect_app no_effect (effect_app no_effect
              (effect_app
                 {| counted := []; case_writes := [];
                    class_writes := [(testclass, filename, subtree)];
                    warnings := [] |}
                 (effect_concat
                    (map (case_effect (Dict.keys (properties self)) filename
                            testclass)
                         (parser.cases subtree))))))
              self s4)
    by eauto using applies_trans.
  exact A.
Qed.

Lemma add_suite_applies (filename : string) (self : ReportMatrix)
  (suite : parser.Suite) :
  exists self',
    add_suite filename self suite = Ok self'
    /\ applies (suite_effect (Dict.keys (properties self)) filename suite)
         self self'.
Proof.
  unfold add_suite, suite_effect.
  destruct (for_each_applies
              (add_class filename suite)
              (class_effect (Dict.keys (properties self)) filename suite)
              (fun s => Dict.keys (properties s)
                        = Dict.keys (properties self))
              (Dict.keys (parser.classes suite)))
    with (s := self) as (s' & E & A & _).
  - intros s x Hin Hkeys.
    destruct (add_class_applies filename suite s x Hin) as (s' & E & A).
    exists s'. rewrite <- Hkeys. split; [exact E |]. split; [exact A |].
    destruct A as (_ & P & _). congruence.
  - reflexivity.
  - eauto.
Qed.

(** [add_report] never raises: it registers the report under its base name
    and has the effect of the report on the rest. *)
Lemma add_report_applies (filename : string) (parsed : parser.Junit)
  (self : ReportMatrix) :
  exists self',
    add_report filename parsed self = Ok self'
    /\ reports self'
       = Dict.set (os_path.basename filename) parsed (reports self)
    /\ applies (report_effect (Dict.keys (properties self))
                  (os_path.basename filename) parsed)
         (set_reports
            (Dict.set (os_path.basename filename) parsed (reports self)) self)
         self'.
Proof.
  unfold add_report, report_effect.
  set (s0 := set_reports _ self).
  destruct (for_each_applies
              (add_suite (os_path.basename filename))
              (suite_effect (Dict.keys (properties self))
                 (os_path.basename filename))
              (fun s => Dict.keys (properties s)
                        = Dict.keys (properties self))
              (parser.suites parsed))
    with (s := s0) as (s' & E & A & _).
  - intros s x _ Hkeys.
    destruct (add_suite_applies (os_path.basename filename) s x)
      as (s' & E & A).
    exists s'. rewrite <- Hkeys. split; [exact E |]. split; [exact A |].
    destruct A as (_ & P & _). congruence.
  - reflexivity.
  - exists s'. split; [exact E |]. split; [| exact A].
    destruct A as (R & _). exact R.
Qed.

Lemma applies_set_reports (e : effect) (r r' : Dict.t parser.Junit)
  (s s' : ReportMatrix) :
  applies e (set_reports r s) s' ->
  applies e (set_reports r' s) (set_reports r' s').
Proof.
  intros (R & P & S & C & K & O & N). unfold applies. simpl in *. auto 10.
Qed.

(** A run never raises, and has the effects of its reports one after the
    other. *)
Lemma add_reports_applies (files : list (string * parser.Junit))
  (self : ReportMatrix) :
  exists self',
    add_reports files self = Ok self'
    /\ reports self' = run_reports files (reports self)
    /\ applies (run_effect (Dict.keys (properties self)) files)
         (set_reports (reports self') self) self'.
Proof.
  unfold add_reports, run_effect. revert self.
  induction files as [| [filename parsed] files IH]; intros self; simpl.
  - exists self. split; [reflexivity |]. split; [reflexivity |].
    destruct self. apply applies_refl.
  - destruct (add_report_applies filename parsed self) as (s1 & E1 & R1 & A1).
    destruct (IH s1) as (s2 & E2 & R2 & A2).
    exists s2. rewrite E1. simpl. split; [exact E2 |].
    split; [now rewrite R2, R1 |].
    assert (K1 : Dict.keys (properties s1) = Dict.keys (properties self))
      by (destruct A1 as (_ & P & _); exact P).
    rewrite K1 in A2.
    apply (applies_trans _ _ _ (set_reports (reports s2) s1)); [| exact A2].
    apply (applies_set_reports _ _ (reports s2)) in A1. exact A1.
Qed.

(** ** The outcome counters *)

Lemma counted_concat (es : list effect) :
  counted (effect_concat es) = concat (map counted es).
Proof.
  induction es as [| e es IH]; simpl; [reflexivity | now rewrite IH].
Qed.

Lemma counted_case_effect (axes : list string) (filename testclass : string)
  (testcase : parser.Case) :
  counted (case_effect axes filename testclass testcase)
  = [parser.outcome testcase].
Proof.
  unfold case_effect. simpl. f_equal. rewrite counted_concat.
  induction (parser.properties testcase) as [| p ps IH]; simpl.
  - reflexivity.
  - unfold property_effect at 1.
    now destruct (contains (parser.value p) axes).
Qed.

Lemma counted_suite_effect (axes : list string) (filename : string)
  (suite : parser.Suite) :
  counted (suite_effect axes filename suite)
  = map parser.outcome (suite_cases suite).
Proof.
  unfold suite_effect, suite_cases. rewrite counted_concat.
  induction (Dict.keys (parser.classes suite)) as [| k ks IH]; simpl.
  - reflexivity.
  - rewrite IH, map_app. f_equal. unfold class_effect.
    destruct (Dict.get k (parser.classes suite)) as [subtree |]; simpl.
    + rewrite counted_concat.
      induction (parser.cases subtree) as [| c cs IHc]; cbn [map concat].
      * reflexivity.
      * now rewrite counted_case_effect, IHc.
    + reflexivity.
Qed.

Lemma counted_report_effect (axes : list string) (filename : string)
  (parsed : parser.Junit) :
  counted (report_effect axes filename parsed)
  = map parser.outcome (report_cases parsed).
Proof.
  unfold report_effect, report_cases. rewrite counted_concat.
  induction (parser.suites parsed) as [| s ss IH]; simpl.
  - reflexivity.
  - now rewrite IH, map_app, counted_suite_effect.
Qed.

Lemma counted_run_effect (axes : list string)
  (files : list (string * parser.Junit)) :
  counted (run_effect axes files) = map parser.outcome (run_cases files).
Proof.
  unfold run_effect, run_cases. rewrite counted_concat.
  induction files as [| f fs IH]; simpl.
  - reflexivity.
  - now rewrite IH, map_app, counted_report_effect.
Qed.

Lemma counter_total_set (k : string) (v : Z) (d : Dict.t Z) :
  counter_total (Dict.set k v d)
  = (counter_total d - Dict.get_default k 0 d + v)%Z.
Proof.
  unfold counter_total, Dict.get_default.
  induction d as [| [k' v'] d IH]; simpl.
  - lia.
  - destruct (String.eqb k k'); simpl; [lia |]. rewrite IH. lia.
Qed.

Lemma counter_total_count (stats : Dict.t Z) (o : string) :
  counter_total (count_outcome stats o) = (counter_total stats + 1)%Z.
Proof.
  unfold count_outcome. rewrite counter_total_set. lia.
Qed.

Lemma get_count_outcome (stats : Dict.t Z) (o o' : string) :
  Dict.get o' (count_outcome stats o)
  = if String.eqb o' o then Some (1 + Dict.get_default o 0 stats)%Z
    else Dict.get o' stats.
Proof.
  unfold count_outcome. apply DictFacts.get_set.
Qed.

Lemma count_with_outcome_cons (o : string) (c : parser.Case)
  (cs : list parser.Case) :
  count_with_outcome o (c :: cs)
  = ((if String.eqb (parser.outcome c) o then 1 else 0)
     + count_with_outcome o cs)%Z.
Proof.
  unfold count_with_outcome. simpl.
  destruct (String.eqb (parser.outcome c) o); simpl length; lia.
Qed.

Lemma count_with_outcome_nonneg (o : string) (cs : list parser.Case) :
  (0 <= count_with_outcome o cs)%Z.
Proof.
  unfold count_with_outcome. lia.
Qed.

Lemma count_with_outcome_Permutation (o : string)
  (cs cs' : list parser.Case) :
  Permutation cs cs' -> count_with_outcome o cs = count_with_outcome o cs'.
Proof.
  induction 1 as [| c cs cs' _ IH | c c' cs | cs cs' cs'' _ IH1 _ IH2].
  - reflexivity.
  - now rewrite !count_with_outcome_cons, IH.
  - rewrite !count_with_outcome_cons. lia.
  - congruence.
Qed.

(** The counter of an outcome after counting the cases [cs]: untouched when
    no case has the outcome, and raised by their number otherwise. *)
Lemma get_counted (cs : list parser.Case) (stats : Dict.t Z) (o : string) :
  Dict.get o (fold_left count_outcome (map parser.outcome cs) stats)
  = if (count_with_outcome o cs =? 0)%Z then Dict.get o stats
    else Some (Dict.get_default o 0 stats + count_with_outcome o cs)%Z.
Proof.
  revert stats. induction cs as [| c cs IH]; intros stats.
  - reflexivity.
  - simpl fold_left. rewrite IH, count_with_outcome_cons.
    pose proof (count_with_outcome_nonneg o cs) as Hnn.
    unfold Dict.get_default at 1. rewrite get_count_outcome.
    rewrite (String.eqb_sym o).
    destruct (String.eqb (parser.outcome c) o) eqn:E.
    + apply String.eqb_eq in E. subst o.
      destruct (Z.eqb_spec (count_with_outcome (parser.outcome c) cs) 0)
        as [Hz | Hz];
        destruct (Z.eqb_spec (1 + count_with_outcome (parser.outcome c) cs) 0);
        try lia.
      * rewrite Hz. f_equal. lia.
      * f_equal. lia.
    + simpl Z.add at 1. unfold Dict.get_default.
      replace (0 + count_with_outcome o cs)%Z with (count_with_outcome o cs)
        by lia.
      reflexivity.
Qed.

Lemma get_default_counted (cs : list parser.Case) (stats : Dict.t Z)
  (o : string) :
  Dict.get_default o 0%Z
    (fold_left count_outcome (map parser.outcome cs) stats)
  = (Dict.get_default o 0 stats + count_with_outcome o cs)%Z.
Proof.
  unfold Dict.get_default at 1. rewrite get_counted.
  destruct (Z.eqb_spec (count_with_outcome o cs) 0) as [Hz | Hz].
  - rewrite Hz. unfold Dict.get_default. destruct (Dict.get o stats); lia.
  - reflexivity.
Qed.

Lemma counter_total_counted (outcomes : list string) (stats : Dict.t Z) :
  counter_total (fold_left count_outcome outcomes stats)
  = (counter_total stats + Z.of_nat (length outcomes))%Z.
Proof.
  revert stats. induction outcomes as [| o os IH]; intros stats.
  - simpl. lia.
  - simpl fold_left. rewrite IH, counter_total_count. simpl length. lia.
Qed.

(** ** The natural order of the axes *)



Lemma forallb_rev {A : Type} (f : A -> bool) (l : list A) :
  forallb f (rev l) = forallb f l.
Proof.
  destruct (forallb f l) eqn:E.
  - rewrite forallb_forall in *. intros x Hx. apply E. now apply in_rev.
  - destruct (forallb f (rev l)) eqn:E'; [| reflexivity].
    rewrite <- E. symmetry. rewrite forallb_forall in *.
    intros x Hx. apply E'. now apply in_rev in Hx.
Qed.








Section Sorting.

Context {A K : Type}.
Variable lt : K -> K -> result bool.
Variable key : A -> K.

Hypothesis lt_asymmetric :
  forall k1 k2, lt k1 k2 = Ok true -> lt k2 k1 = Ok false.

(** [a] may stand before [b]: [b] is not below [a]. *)
Let before (a b : A) : Prop := lt (key b) (key a) = Ok false.

Lemma insert_by_sorted (x : A) (l : list A) :
  (forall y, In y l -> exists b, lt (key y) (key x) = Ok b) ->
  exists l',
    insert_by lt key x l = Ok l'
    /\ Permutation l' (x :: l)
    /\ (Sorted before l -> Sorted before l')
    /\ (forall a, before a x -> HdRel before a l -> HdRel before a l').
Proof.
  induction l as [| y l IH]; intros Hlt; simpl.
  - exists [x]. repeat split; auto.
  - destruct (Hlt y (or_introl eq_refl)) as [b Hb]. rewrite Hb. simpl.
    destruct b.
    + destruct IH as (l' & E & P & S & H).
      { intros z Hz. apply Hlt. now right. }
      rewrite E. simpl. exists (y :: l'). split; [reflexivity |]. split.
      { rewrite P. apply perm_swap. }
      split.
      * intros Hs. inversion Hs as [| ? ? Hs' Hd]; subst.
        constructor; [now apply S |].
        apply H; [| exact Hd]. unfold before. now apply lt_asymmetric.
      * intros a _ Hd. inversion Hd; subst. now constructor.
    + exists (x :: y :: l). split; [reflexivity |]. split; [reflexivity |].
      split.
      * intros Hs. constructor; [exact Hs |]. constructor. exact Hb.
      * intros a Ha _. now constructor.
Qed.

Lemma sorted_by_sorted (xs : list A) :
  (forall x y, In x xs -> In y xs -> exists b, lt (key x) (key y) = Ok b) ->
  exists l,
    sorted_by lt key xs = Ok l /\ Permutation l xs /\ Sorted before l.
Proof.
  induction xs as [| x xs IH]; intros Hlt; simpl.
  - exists []. auto.
  - destruct IH as (tail & E & P & S).
    { intros a b Ha Hb. apply Hlt; now right. }
    rewrite E. simpl.
    destruct (insert_by_sorted x tail) as (l & E' & P' & S' & _).
    { intros y Hy. apply Hlt; [right | now left].
      now apply (Permutation_in _ P). }
    exists l. split; [exact E' |]. split; [| now apply S'].
    rewrite P'. now constructor.
Qed.



End Sorting.

(** *** The key of a name in ASCII *)

Lemma isascii_of_list (l : list ascii) :
  str.isascii (string_of_list_ascii l) = forallb str.is_ascii l.
Proof.
  induction l as [| c l IH]; simpl; [reflexivity | now rewrite IH].
Qed.

Lemma isascii_rev (l : list ascii) :
  forallb str.is_ascii l = true ->
  str.isascii (string_of_list_ascii (rev l)) = true.
Proof.
  intros H. now rewrite isascii_of_list, forallb_rev.
Qed.

(** The pieces of a name in ASCII are in ASCII. *)
Lemma split_isascii (s : string) :
  (forall text piece,
     forallb str.is_ascii text = true -> str.isascii s = true ->
     In piece (split_text text s) -> str.isascii piece = true)
  /\ (forall digits piece,
        forallb str.is_ascii digits = true -> str.isascii s = true ->
        In piece (split_digits digits s) -> str.isascii piece = true).
Proof.
  induction s as [| c s [IHt IHd]]; split.
  - intros text piece H _ [<- | []]. now apply isascii_rev.
  - intros digits piece H _ [<- | [<- | []]];
      [now apply isascii_rev | reflexivity].
  - intros text piece H Hs. cbn [str.isascii] in Hs.
    apply andb_prop in Hs. destruct Hs as [Hc Hs].
    cbn [split_text]. destruct (str.is_digit c).
    + intros [<- | Hp]; [now apply isascii_rev |].
      apply (IHd [c]); [simpl; now rewrite Hc | exact Hs | exact Hp].
    + apply IHt; [simpl; now rewrite Hc, H | exact Hs].
  - intros digits piece H Hs. cbn [str.isascii] in Hs.
    apply andb_prop in Hs. destruct Hs as [Hc Hs].
    cbn [split_digits]. destruct (str.is_digit c).
    + apply IHd; [simpl; now rewrite Hc, H | exact Hs].
    + intros [<- | Hp]; [now apply isascii_rev |].
      apply (IHt [c]); [simpl; now rewrite Hc | exact Hs | exact Hp].
Qed.

Lemma comprehension_map {A B : Type} (f : A -> result B) (g : A -> B)
  (xs : list A) :
  (forall x, In x xs -> f x = Ok (g x)) ->
  comprehension f xs = Ok (map g xs).
Proof.
  induction xs as [| x xs IH]; intros H; simpl; [reflexivity |].
  rewrite (H x (or_introl eq_refl)). cbn [bind].
  rewrite IH; [reflexivity |]. intros y Hy. apply H. now right.
Qed.



Section Unicode.

Context {u : str.Unicode}.

(** On a piece in ASCII nothing is asked of the class [str.Unicode]. *)
Lemma key_part_of_ascii (text : string) :
  str.isascii text = true -> key_part_of text = Ok (ascii_key_part text).
Proof.
  intros H. unfold key_part_of, ascii_key_part, str.isdigit, str.int, str.lower.
  rewrite H. now destruct (str.ascii_isdigit text).
Qed.

Lemma natural_sort_key_ascii (s : string) :
  str.isascii s = true -> natural_sort_key s = Ok (ascii_sort_key s).
Proof.
  intros H. apply comprehension_map. intros piece Hp.
  apply key_part_of_ascii.
  now apply (proj1 (split_isascii s) [] piece eq_refl H).
Qed.

Lemma natural_le_ascii (a b : string) :
  str.isascii a = true -> str.isascii b = true ->
  ascii_natural_le a b -> natural_le a b.
Proof.
  intros Ha Hb H. exists (ascii_sort_key a), (ascii_sort_key b).
  split; [now apply natural_sort_key_ascii |].
  split; [now apply natural_sort_key_ascii | exact H].
Qed.




End Unicode.

(** ** The precedence of the combinator and what it depends on *)

(** C1. For every collection of outcomes [combined_result] follows the fixed
    precedence: Passed with Failed gives partial failure; otherwise Passed
    with Skipped gives partial pass; otherwise Passed gives Passed;
    otherwise Failed gives total failure; otherwise Skipped gives untested;
    and a collection with none of the three, the empty one included, gives
    the blank short code and the empty label. The function is total. *)
Theorem combined_result_precedence {po : ParserOutcomes} (cls : matrix_class)
  (results : list string) :
  distinct_outcomes = true ->
  (In PASSED results -> In FAILED results ->
   combined_result cls results = ("X", "Partial Failure"))
  /\ (In PASSED results -> ~ In FAILED results -> In SKIPPED results ->
      combined_result cls results = ("%", "Partial Pass"))
  /\ (In PASSED results -> ~ In FAILED results -> ~ In SKIPPED results ->
      combined_result cls results
      = (match cls with HtmlReportMatrix_class => "ok" | _ => "/" end,
         str.title PASSED))
  /\ (~ In PASSED results -> In FAILED results ->
      combined_result cls results = ("F", "Total Failure"))
  /\ (~ In PASSED results -> ~ In FAILED results -> In SKIPPED results ->
      combined_result cls results = ("U", "Untested"))
  /\ (~ In PASSED results -> ~ In FAILED results -> ~ In SKIPPED results ->
      combined_result cls results = (" ", EmptyString))
  /\ combined_result cls [] = (" ", EmptyString).
Proof.
  intros H.
  destruct (short_outcome_derived cls H) as (SX & SP & SF & SU).
  pose proof (short_outcome_PASSED cls) as SO.
  unfold combined_result. rewrite SX, SP, SF, SU, SO.
  repeat split; intros;
    repeat match goal with
      | Hin : In _ results |- _ => apply contains_In in Hin; rewrite Hin
      | Hni : ~ In _ results |- _ => apply contains_not_In in Hni; rewrite Hni
      end; reflexivity.
Qed.

(** A run of C1: with the outcome strings of the junit2html parser, Passed
    with Failed is a partial failure. *)
Lemma combined_result_precedence_witness :
  @distinct_outcomes junit_outcomes = true
  /\ @combined_result junit_outcomes TextReportMatrix_class
       ["failed"; "passed"; "skipped"]
     = ("X", "Partial Failure").
Proof.
  split; [reflexivity |].
  apply (@combined_result_precedence junit_outcomes TextReportMatrix_class
           ["failed"; "passed"; "skipped"]);
    [reflexivity | simpl; auto | simpl; auto].
Defined.

Section Rows.

Context {po : ParserOutcomes}.

(** The class of the cell of an axis in a row of the HTML matrix. *)
Lemma summary_cells (classname casename : string) (self : ReportMatrix)
  (of_class : Dict.t (Dict.t parser.Case)) (of_case : Dict.t parser.Case)
  (report_name : string) :
  Dict.get classname (cases self) = Some of_class ->
  Dict.get casename of_class = Some of_case ->
  first (Dict.keys (reports self)) = Ok report_name ->
  forall axes row,
  exists row',
    for_each (summary_cell classname casename self) axes row = Ok row'
    /\ case_results row'
       = case_results row
         ++ map (fun axis =>
                   match Dict.get axis of_case with
                   | Some testcase => parser.outcome testcase
                   | None => ABSENT
                   end) axes.
Proof.
  intros Hc Hn Hr axes.
  induction axes as [| axis axes IH]; intros row; simpl.
  - exists row. now rewrite app_nil_r.
  - unfold summary_cell at 1. unfold getitem, Dict.mem.
    rewrite Hc. simpl. rewrite Hn. simpl. rewrite Hr.
    destruct (Dict.get axis of_case) as [testcase |]; simpl;
      match goal with
      | |- exists r, for_each _ _ ?x = _ /\ _ =>
          destruct (IH x) as (row' & E & R)
      end;
      exists row'; (split; [exact E |]);
      rewrite R; simpl; now rewrite <- app_assoc.
Qed.

Lemma observed_results_In (of_case : Dict.t parser.Case)
  (axes : list string) (o : string) :
  o <> ABSENT ->
  In o (map (fun axis =>
               match Dict.get axis of_case with
               | Some testcase => parser.outcome testcase
               | None => ABSENT
               end) axes)
  <-> In o (observed_results of_case axes).
Proof.
  intros Hne. unfold observed_results.
  induction axes as [| axis axes IH]; simpl.
  - tauto.
  - rewrite in_app_iff, IH.
    destruct (Dict.get axis of_case) as [testcase |]; simpl.
    + tauto.
    + split; [intros [E | Hin]; [congruence | auto] | intros [[] | Hin]; auto].
Qed.

End Rows.

Lemma not_elementary_ABSENT {po : ParserOutcomes} :
  distinct_outcomes = true -> ~ In ABSENT [PASSED; FAILED; SKIPPED].
Proof.
  intros H. apply pairwise_distinct_NoDup in H.
  inversion H as [| ? ? P1 H1]; subst.
  inversion H1 as [| ? ? P2 H2]; subst.
  inversion H2 as [| ? ? P3 H3]; subst.
  simpl in *. intros [E | [E | [E | []]]].
  - apply P1. rewrite E. auto.
  - apply P3. rewrite E. auto.
  - apply P2. rewrite E. auto.
Qed.

(** C2. [combined_result] depends only on which of Passed, Failed and
    Skipped are members of its argument: it is the same for two collections
    with the same members among the three, hence under reordering, under
    duplication and under adding or removing an entry that is none of the
    three. In the HTML matrix the combined column of a row, computed from
    the classes of all cells with [ABSENT] for every blank one, is the
    combination of the outcomes of the axes on which the case has a
    result, for the axes in the order that [property_order] returns. *)
Theorem combined_result_membership {po : ParserOutcomes} {u : str.Unicode}
  (cls : matrix_class) :
  distinct_outcomes = true ->
  (forall rs rs',
     (forall o, In o [PASSED; FAILED; SKIPPED] -> In o rs <-> In o rs') ->
     combined_result cls rs = combined_result cls rs')
  /\ (forall rs rs',
        Permutation rs rs' ->
        combined_result cls rs = combined_result cls rs')
  /\ (forall rs, combined_result cls (rs ++ rs) = combined_result cls rs)
  /\ (forall x rs1 rs2,
        ~ In x [PASSED; FAILED; SKIPPED] ->
        combined_result cls (rs1 ++ x :: rs2)
        = combined_result cls (rs1 ++ rs2))
  /\ (forall rs1 rs2,
        combined_result cls (rs1 ++ ABSENT :: rs2)
        = combined_result cls (rs1 ++ rs2))
  /\ (forall classname casename self of_class of_case report_name
             axis_classes axes,
        Dict.get classname (cases self) = Some of_class ->
        Dict.get casename of_class = Some of_case ->
        first (Dict.keys (reports self)) = Ok report_name ->
        property_order self = Ok axes ->
        exists row,
          for_each (summary_cell classname casename self) axes
               {| case_results := []; celltds := EmptyString;
                  property_class := axis_classes |} = Ok row
          /\ combined_result HtmlReportMatrix_class (case_results row)
             = combined_result HtmlReportMatrix_class
                 (observed_results of_case axes)
          /\ summary_row classname self axis_classes casename
             = Ok ((("<tr class='testcase'><td width='16'>" ++ casename
                     ++ "</td>") ++ celltds row
                    ++ "<td span class='testcase-combined'>"
                    ++ snd (combined_result HtmlReportMatrix_class
                              (observed_results of_case axes))
                    ++ "</td>" ++ "</tr>")%string,
                   property_class row)).
Proof.
  intros H.
  assert (Hperm : forall rs rs', Permutation rs rs' ->
            combined_result cls rs = combined_result cls rs').
  { intros rs rs' P. apply combined_result_ext. intros o _.
    split; [apply Permutation_in; exact P
           | apply Permutation_in; apply Permutation_sym; exact P]. }
  assert (Hdrop : forall x rs1 rs2, ~ In x [PASSED; FAILED; SKIPPED] ->
            combined_result cls (rs1 ++ x :: rs2)
            = combined_result cls (rs1 ++ rs2)).
  { intros x rs1 rs2 Hx. apply combined_result_ext. intros o Ho.
    rewrite !in_app_iff. simpl. split; [| tauto].
    intros [Hin | [E | Hin]]; auto. subst o. contradiction. }
  split; [apply combined_result_ext |].
  split; [exact Hperm |].
  split.
  { intros rs. apply combined_result_ext. intros o _.
    rewrite in_app_iff. tauto. }
  split; [exact Hdrop |].
  split.
  { intros rs1 rs2. apply Hdrop. now apply not_elementary_ABSENT. }
  intros classname casename self of_class of_case report_name
    axis_classes axes Hc Hn Hr Ho.
  destruct (summary_cells classname casename self of_class of_case
              report_name Hc Hn Hr axes
              {| case_results := []; celltds := EmptyString;
                 property_class := axis_classes |}) as (row & E & R).
  simpl in R.
  assert (C : combined_result HtmlReportMatrix_class (case_results row)
              = combined_result HtmlReportMatrix_class
                  (observed_results of_case axes)).
  { rewrite R. apply combined_result_ext. intros o Hin.
    apply observed_results_In. intros ->.
    now apply (not_elementary_ABSENT H). }
  exists row. split; [exact E |].
  split; [exact C |].
  unfold summary_row. rewrite Ho. cbn [bind]. rewrite E. cbn [bind].
  now rewrite C.
Qed.

(** A run of C2 with the outcome strings of the junit2html parser: the
    blank cells of a row do not reach the combined result, and the row of
    [caseZ] after the two reports, on the axes REQ1 to REQ3, combines the
    outcomes under REQ1 and REQ2. *)
Lemma combined_result_membership_witness :
  @distinct_outcomes junit_outcomes = true
  /\ @combined_result junit_outcomes HtmlReportMatrix_class
       (["absent"; "passed"] ++ "absent" :: ["skipped"; "absent"])
     = @combined_result junit_outcomes HtmlReportMatrix_class
         (["absent"; "passed"] ++ ["skipped"; "absent"])
  /\ exists self of_class of_case row,
       add_reports two_reports (init (Some "REQ") 3) = Ok self
       /\ Dict.get "classY" (cases self) = Some of_class
       /\ Dict.get "caseZ" of_class = Some of_case
       /\ first (Dict.keys (reports self)) = Ok "fileA.xml"
       /\ @property_order plain_ascii self = Ok ["REQ1"; "REQ2"; "REQ3"]
       /\ for_each (summary_cell (po := junit_outcomes) "classY" "caseZ" self)
            ["REQ1"; "REQ2"; "REQ3"]
            {| case_results := []; celltds := EmptyString;
               property_class := [] |} = Ok row
       /\ @combined_result junit_outcomes HtmlReportMatrix_class
            (case_results row)
          = @combined_result junit_outcomes HtmlReportMatrix_class
              (observed_results of_case ["REQ1"; "REQ2"; "REQ3"]).
Proof.
  split; [reflexivity |].
  split.
  { apply (@combined_result_membership junit_outcomes plain_ascii
             HtmlReportMatrix_class eq_refl). }
  assert (E : exists self of_class of_case,
            add_reports two_reports (init (Some "REQ") 3) = Ok self
            /\ Dict.get "classY" (cases self) = Some of_class
            /\ Dict.get "caseZ" of_class = Some of_case
            /\ first (Dict.keys (reports self)) = Ok "fileA.xml"
            /\ @property_order plain_ascii self
               = Ok ["REQ1"; "REQ2"; "REQ3"]).
  { do 3 eexists.
    split; [vm_compute; reflexivity |].
    split; [vm_compute; reflexivity |].
    split; [vm_compute; reflexivity |].
    split; vm_compute; reflexivity. }
  destruct E as (self & of_class & of_case & E & Hc & Hn & Hr & Ho).
  destruct (proj2 (proj2 (proj2 (proj2 (proj2
              (@combined_result_membership junit_outcomes plain_ascii
                 HtmlReportMatrix_class eq_refl)))))
              "classY" "caseZ" self of_class of_case "fileA.xml" []
              ["REQ1"; "REQ2"; "REQ3"] Hc Hn Hr Ho) as (row & Er & C & _).
  exists self, of_class, of_case, row. auto 10.
Defined.

(** ** The counters, the warnings and the case names *)

Lemma init_attributes (prop_prefix : option string) (prop_count : Z) :
  reports (init prop_prefix prop_count) = []
  /\ cases (init prop_prefix prop_count) = []
  /\ classes (init prop_prefix prop_count) = []
  /\ casenames (init prop_prefix prop_count) = []
  /\ result_stats (init prop_prefix prop_count) = []
  /\ stdout (init prop_prefix prop_count) = [].
Proof.
  unfold init. destruct prop_prefix as [prefix |]; [| simpl; auto 10].
  destruct (negb (String.eqb prefix EmptyString) && negb (Z.eqb prop_count 0));
    [| simpl; auto 10].
  generalize (range_from_1 prop_count). intros l.
  match goal with
  | |- context [fold_left ?f l ?s] =>
      assert (G : forall s0,
                reports (fold_left f l s0) = reports s0
                /\ cases (fold_left f l s0) = cases s0
                /\ classes (fold_left f l s0) = classes s0
                /\ casenames (fold_left f l s0) = casenames s0
                /\ result_stats (fold_left f l s0) = result_stats s0
                /\ stdout (fold_left f l s0) = stdout s0);
      [| exact (G s)]
  end.
  induction l as [| i l IH]; intros s0; simpl; [auto 10 |].
  destruct (IH (set_properties
                  (Dict.set (prefix ++ str.of_int i) [] (properties s0)) s0))
    as (R & C & K & N & S & O).
  simpl in *. auto 10.
Qed.

(** C4. Ingestion increments the counter of the outcome of a test case once
    for each case that the loops reach, whatever properties the case
    declares: after a run the counters are those before it with the
    outcomes of the cases counted one by one, each counter has grown by the
    number of cases with its outcome, and the sum of the counters has grown
    by the number of cases. From a new matrix the sum is the number of cases
    of the reports. Adding one case counts its outcome once. *)
Theorem result_stats_counts_each_case_once :
  (forall files self,
     exists self',
       add_reports files self = Ok self'
       /\ result_stats self'
          = fold_left count_outcome (map parser.outcome (run_cases files))
              (result_stats self)
       /\ (forall o,
             Dict.get_default o 0%Z (result_stats self')
             = (Dict.get_default o 0 (result_stats self)
                + count_with_outcome o (run_cases files))%Z)
       /\ counter_total (result_stats self')
          = (counter_total (result_stats self)
             + Z.of_nat (length (run_cases files)))%Z)
  /\ (forall prop_prefix prop_count files,
        exists self',
          add_reports files (init prop_prefix prop_count) = Ok self'
          /\ (forall o,
                Dict.get_default o 0%Z (result_stats self')
                = count_with_outcome o (run_cases files))
          /\ counter_total (result_stats self')
             = Z.of_nat (length (run_cases files)))
  /\ (forall filename testclass self testcase,
        Dict.mem testclass (casenames self) = true ->
        exists self',
          add_case filename testclass self testcase = Ok self'
          /\ result_stats self'
             = count_outcome (result_stats self) (parser.outcome testcase)).
Proof.
  assert (G : forall files self,
     exists self',
       add_reports files self = Ok self'
       /\ result_stats self'
          = fold_left count_outcome (map parser.outcome (run_cases files))
              (result_stats self)
       /\ (forall o,
             Dict.get_default o 0%Z (result_stats self')
             = (Dict.get_default o 0 (result_stats self)
                + count_with_outcome o (run_cases files))%Z)
       /\ counter_total (result_stats self')
          = (counter_total (result_stats self)
             + Z.of_nat (length (run_cases files)))%Z).
  { intros files self.
    destruct (add_reports_applies files self) as (self' & E & _ & A).
    destruct A as (_ & _ & S & _). simpl in S.
    rewrite counted_run_effect in S.
    exists self'. split; [exact E |]. split; [exact S |]. rewrite S. split.
    - intros o. apply get_default_counted.
    - now rewrite counter_total_counted, length_map. }
  split; [exact G |]. split.
  - intros prop_prefix prop_count files.
    destruct (G files (init prop_prefix prop_count)) as (self' & E & _ & C & T).
    destruct (init_attributes prop_prefix prop_count)
      as (_ & _ & _ & _ & S0 & _).
    rewrite S0 in C, T. exists self'. split; [exact E |]. split.
    + intros o. rewrite C. unfold Dict.get_default. simpl. lia.
    + rewrite T. unfold counter_total. simpl. lia.
  - intros filename testclass self testcase Hmem.
    destruct (add_case_applies filename testclass self testcase Hmem)
      as (self' & E & A & _).
    exists self'. split; [exact E |].
    destruct A as (_ & _ & S & _). rewrite counted_case_effect in S.
    exact S.
Qed.

(** A run of C4: the case of the first report, with its two properties,
    is counted once. *)
Lemma result_stats_counts_each_case_once_witness :
  Dict.mem "classY"
    (casenames (set_casenames [("classY", [])] (init (Some "REQ") 2))) = true
  /\ exists self',
       add_case "fileA.xml" "classY"
         (set_casenames [("classY", [])] (init (Some "REQ") 2)) case_A
       = Ok self'
       /\ result_stats self' = [("passed", 1%Z)].
Proof.
  split; [reflexivity |].
  apply (proj2 (proj2 result_stats_counts_each_case_once)
           "fileA.xml" "classY"
           (set_casenames [("classY", [])] (init (Some "REQ") 2)) case_A).
  reflexivity.
Defined.

(** C7. The counters after a run do not depend on the order in which the
    reports are added: two runs over the same reports in different orders,
    from the same matrix, end with the same counter under every outcome.
    The base names of the reports need not even differ. *)
Theorem result_stats_order_independent
  (files files' : list (string * parser.Junit)) (self : ReportMatrix) :
  Permutation files files' ->
  exists self1 self2,
    add_reports files self = Ok self1
    /\ add_reports files' self = Ok self2
    /\ forall o,
         Dict.get o (result_stats self1) = Dict.get o (result_stats self2).
Proof.
  intros P.
  destruct (add_reports_applies files self) as (s1 & E1 & _ & A1).
  destruct (add_reports_applies files' self) as (s2 & E2 & _ & A2).
  destruct A1 as (_ & _ & S1 & _). destruct A2 as (_ & _ & S2 & _).
  simpl in S1, S2. rewrite counted_run_effect in S1, S2.
  exists s1, s2. split; [exact E1 |]. split; [exact E2 |].
  intros o. rewrite S1, S2, !get_counted.
  assert (C : count_with_outcome o (run_cases files)
              = count_with_outcome o (run_cases files')).
  { apply count_with_outcome_Permutation. unfold run_cases.
    now apply Permutation_flat_map. }
  now rewrite C.
Qed.

(** A run of C7: the two reports in both orders. *)
Lemma result_stats_order_independent_witness :
  Permutation two_reports (rev two_reports)
  /\ exists self1 self2,
       add_reports two_reports (init (Some "REQ") 2) = Ok self1
       /\ add_reports (rev two_reports) (init (Some "REQ") 2) = Ok self2
       /\ forall o,
            Dict.get o (result_stats self1) = Dict.get o (result_stats self2).
Proof.
  split; [apply Permutation_rev |].
  apply (result_stats_order_independent two_reports (rev two_reports)
           (init (Some "REQ") 2) (Permutation_rev two_reports)).
Defined.

(** C3. The registry of case names of a class does not hold distinct names.
    The test before the append, [basename not in self.casenames], looks the
    name up among the class names, the keys of [casenames], and not in
    [casenames[testclass]]: the case [caseZ], met in two reports, is
    registered twice; and a case named like a registered class is not
    registered at all. *)
Theorem casenames_registers_a_name_twice :
  (exists self,
     add_reports two_reports (init None 0) = Ok self
     /\ casenames self = [("classY", ["caseZ"; "caseZ"])])
  /\ (exists self,
        add_report "r.xml"
          {| parser.suites :=
               [{| parser.classes :=
                     [("classY",
                       {| parser.cases :=
                            [{| parser.basename := "classY";
                                parser.outcome := "passed";
                                parser.properties := [];
                                parser.anchor := "a" |}] |})] |}] |}
          (init None 0) = Ok self
        /\ casenames self = [("classY", [])]
        /\ Dict.keys (Dict.get_default "classY" [] (cases self))
           = ["classY"]).
Proof.
  split.
  - eexists. split; [vm_compute; reflexivity | reflexivity].
  - eexists. split; [vm_compute; reflexivity |]. split; reflexivity.
Qed.

Lemma key3_eqb_eq (a b : string * string * string) :
  key3_eqb a b = true <-> a = b.
Proof.
  destruct a as [[a1 a2] a3], b as [[b1 b2] b3].
  unfold key3_eqb, key2_eqb. simpl.
  rewrite !andb_true_iff, !String.eqb_eq. split.
  - intros [[-> ->] ->]. reflexivity.
  - intros [= -> -> ->]. auto.
Qed.

Lemma last_write_Some {K V : Type} (eqb : K -> K -> bool) (k : K)
  (writes : list (K * V)) (v : V) :
  last_write eqb k writes = Some v ->
  exists k', In (k', v) writes /\ eqb k k' = true.
Proof.
  induction writes as [| [k' v'] writes IH]; simpl; [discriminate |].
  destruct (last_write eqb k writes) as [v0 |].
  - intros [= ->]. destruct (IH eq_refl) as (k0 & Hin & E). eauto.
  - destruct (eqb k k') eqn:E; [| discriminate].
    intros [= ->]. eauto.
Qed.

Lemma last_write_In {K V : Type} (eqb : K -> K -> bool) (k k' : K)
  (writes : list (K * V)) (v : V) :
  In (k', v) writes -> eqb k k' = true ->
  exists v', last_write eqb k writes = Some v'.
Proof.
  induction writes as [| [k0 v0] writes IH]; simpl; [tauto |].
  intros [[= -> ->] | Hin] E.
  - destruct (last_write eqb k writes); [eauto |]. rewrite E. eauto.
  - destruct (IH Hin E) as [v' ->]. eauto.
Qed.

Lemma case_writes_concat (es : list effect) :
  case_writes (effect_concat es) = concat (map case_writes es).
Proof.
  induction es as [| e es IH]; simpl; [reflexivity | now rewrite IH].
Qed.

Lemma warnings_concat (es : list effect) :
  warnings (effect_concat es) = concat (map warnings es).
Proof.
  induction es as [| e es IH]; simpl; [reflexivity | now rewrite IH].
Qed.

(** What adding a case writes: the entry of the report, then one entry for
    each property that names a declared axis. *)
Lemma case_writes_case_effect (axes : list string)
  (filename testclass : string) (testcase : parser.Case) :
  case_writes (case_effect axes filename testclass testcase)
  = (testclass, str.strip (parser.basename testcase), filename, testcase)
    :: map (fun p =>
              (testclass, str.strip (parser.basename testcase),
               parser.value p, testcase))
         (filter (fun p => contains (parser.value p) axes)
                 (parser.properties testcase)).
Proof.
  unfold case_effect. simpl. f_equal. rewrite case_writes_concat.
  induction (parser.properties testcase) as [| p ps IH]; simpl.
  - reflexivity.
  - unfold property_effect at 1.
    destruct (contains (parser.value p) axes); simpl; now rewrite IH.
Qed.

(** What adding a case prints: one warning for each property that names no
    declared axis. *)
Lemma warnings_case_effect (axes : list string)
  (filename testclass : string) (testcase : parser.Case) :
  warnings (case_effect axes filename testclass testcase)
  = map unrecognized
      (filter (fun p => negb (contains (parser.value p) axes))
              (parser.properties testcase)).
Proof.
  unfold case_effect. simpl. rewrite warnings_concat.
  induction (parser.properties testcase) as [| p ps IH]; simpl.
  - reflexivity.
  - unfold property_effect at 1.
    destruct (contains (parser.value p) axes); simpl; now rewrite IH.
Qed.

(** C5. A property whose value is not a declared axis makes [add_report]
    print a warning and go on. The round of the loop for that property
    returns the matrix as it was, with the warning printed. Adding the case
    never raises, leaves the declared axes as they were, stores the case
    under the axis of the report and under every declared axis that one of
    its properties names, counts its outcome once, leaves the entry under
    an undeclared value as it was, and prints one warning for each
    undeclared value. A whole run never raises and never adds an axis. *)
Theorem unrecognized_property_is_skipped :
  (forall testclass basename testcase self prop,
     Dict.mem (parser.value prop) (properties self) = false ->
     add_property testclass basename testcase self prop
     = Ok (print (unrecognized prop) self))
  /\ (forall filename testclass self testcase,
        Dict.mem testclass (casenames self) = true ->
        exists self',
          add_case filename testclass self testcase = Ok self'
          /\ Dict.keys (properties self') = Dict.keys (properties self)
          /\ lookup3 testclass (str.strip (parser.basename testcase)) filename
               (cases self') = Some testcase
          /\ result_stats self'
             = count_outcome (result_stats self) (parser.outcome testcase)
          /\ (forall p,
                In p (parser.properties testcase) ->
                Dict.mem (parser.value p) (properties self) = true ->
                lookup3 testclass (str.strip (parser.basename testcase))
                  (parser.value p) (cases self') = Some testcase)
          /\ (forall p,
                In p (parser.properties testcase) ->
                Dict.mem (parser.value p) (properties self) = false ->
                parser.value p <> filename ->
                lookup3 testclass (str.strip (parser.basename testcase))
                  (parser.value p) (cases self')
                = lookup3 testclass (str.strip (parser.basename testcase))
                    (parser.value p) (cases self))
          /\ stdout self'
             = stdout self
               ++ map unrecognized
                    (filter
                       (fun p =>
                          negb (Dict.mem (parser.value p) (properties self)))
                       (parser.properties testcase)))
  /\ (forall files self,
        exists self',
          add_reports files self = Ok self'
          /\ Dict.keys (properties self') = Dict.keys (properties self)).
Proof.
  split; [| split].
  - intros testclass basename testcase self prop M.
    unfold add_property. now rewrite M.
  - intros filename testclass self testcase Hmem.
    destruct (add_case_applies filename testclass self testcase Hmem)
      as (self' & E & A & _).
    destruct A as (_ & P & S & C & _ & O & _).
    rewrite counted_case_effect in S.
    rewrite warnings_case_effect in O.
    set (bn := str.strip (parser.basename testcase)) in *.
    assert (W : forall a v,
              last_write key3_eqb (testclass, bn, a)
                (case_writes
                   (case_effect (Dict.keys (properties self)) filename
                      testclass testcase)) = Some v ->
              v = testcase
              /\ (a = filename
                  \/ exists p, In p (parser.properties testcase)
                               /\ Dict.mem (parser.value p) (properties self)
                                  = true
                               /\ a = parser.value p)).
    { intros a v Hw. apply last_write_Some in Hw.
      destruct Hw as (k' & Hin & Ek). apply key3_eqb_eq in Ek. subst k'.
      rewrite case_writes_case_effect in Hin.
      destruct Hin as [Heq | Hin].
      { injection Heq as Ha Hv. auto. }
      apply in_map_iff in Hin. destruct Hin as (p & Heq & Hp).
      injection Heq as Ha Hv.
      apply filter_In in Hp. destruct Hp as [Hp Hc].
      rewrite <- mem_contains_keys in Hc. eauto 6. }
    assert (D : forall a,
              (exists k' v, In (k', v)
                 (case_writes
                    (case_effect (Dict.keys (properties self)) filename
                       testclass testcase))
                 /\ key3_eqb (testclass, bn, a) k' = true) ->
              lookup3 testclass bn a (cases self') = Some testcase).
    { intros a (k' & v & Hin & Ek).
      destruct (last_write_In key3_eqb _ _ _ _ Hin Ek) as [v' Hv'].
      rewrite C. unfold lookup_after. rewrite Hv'.
      destruct (W a v' Hv') as [-> _]. reflexivity. }
    exists self'. split; [exact E |]. split; [exact P |]. split.
    { apply D. exists (testclass, bn, filename), testcase.
      rewrite case_writes_case_effect. split; [now left |].
      now apply key3_eqb_eq. }
    split; [exact S |]. split.
    { intros p Hp Hm. apply D.
      exists (testclass, bn, parser.value p), testcase.
      rewrite case_writes_case_effect. split; [| now apply key3_eqb_eq].
      right. apply in_map_iff. exists p. split; [reflexivity |].
      apply filter_In. split; [exact Hp |]. now rewrite <- mem_contains_keys. }
    split.
    { intros p Hp Hm Hne. rewrite C. unfold lookup_after.
      destruct (last_write key3_eqb (testclass, bn, parser.value p) _)
        as [v |] eqn:Hw; [| reflexivity].
      destruct (W _ _ Hw) as [_ [Ha | (q & _ & Hq & Ha)]].
      - contradiction.
      - rewrite <- Ha in Hq. congruence. }
    rewrite O. f_equal. f_equal. apply filter_ext. intros p.
    now rewrite mem_contains_keys.
  - intros files self.
    destruct (add_reports_applies files self) as (self' & E & _ & A).
    exists self'. split; [exact E |]. destruct A as (_ & P & _). exact P.
Qed.

(** A run of C5: the property SRS9 of the first report names no axis of a
    matrix with the axes REQ1 and REQ2. *)
Lemma unrecognized_property_is_skipped_witness :
  Dict.mem "SRS9" (properties (init (Some "REQ") 2)) = false
  /\ add_property "classY" "caseZ" case_A (init (Some "REQ") 2)
       {| parser.value := "SRS9" |}
     = Ok (print "WARNING: Ignoring unrecognized property: SRS9"
             (init (Some "REQ") 2)).
Proof.
  split; [reflexivity |].
  apply (proj1 unrecognized_property_is_skipped
           "classY" "caseZ" case_A (init (Some "REQ") 2)
           {| parser.value := "SRS9" |}).
  reflexivity.
Defined.

(** ** The property axes *)

Lemma of_int_injective (i j : Z) : str.of_int i = str.of_int j -> i = j.
Proof.
  unfold str.of_int. intros H.
  assert (N : forall z, Z.to_int z <> Decimal.Pos Decimal.Nil
                        /\ Z.to_int z <> Decimal.Neg Decimal.Nil).
  { intros [| p | p]; simpl; split; try discriminate;
      intros [= E]; now apply (DecimalPos.Unsigned.to_uint_nonnil p). }
  apply DecimalZ.to_int_inj.
  assert (E : Some (Z.to_int i) = Some (Z.to_int j)).
  { rewrite <- (NilZero.isi (Z.to_int i)), <- (NilZero.isi (Z.to_int j));
      try apply N.
    now rewrite H. }
  now injection E.
Qed.

Lemma append_cancel_l (p a b : string) :
  (p ++ a)%string = (p ++ b)%string -> a = b.
Proof.
  induction p as [| c p IH]; simpl; [auto |]. intros [= H]. auto.
Qed.

Lemma NoDup_range_from_1 (n : Z) : NoDup (range_from_1 n).
Proof.
  unfold range_from_1. apply Finite.Injective_map_NoDup.
  - intros a b H. lia.
  - apply seq_NoDup.
Qed.

Lemma NoDup_axis_names (prefix : string) (count : Z) :
  NoDup (axis_names prefix count).
Proof.
  unfold axis_names. apply Finite.Injective_map_NoDup.
  - intros a b H. now apply of_int_injective, (append_cancel_l prefix).
  - apply NoDup_range_from_1.
Qed.

Lemma length_axis_names (prefix : string) (count : Z) :
  length (axis_names prefix count) = Z.to_nat count.
Proof.
  unfold axis_names, range_from_1. now rewrite !length_map, length_seq.
Qed.

(** Declaring names that are new and differ from one another appends them
    to the axes in their order. *)
Lemma keys_declared (prefix : string) (l : list Z) (self : ReportMatrix) :
  NoDup (Dict.keys (properties self)
         ++ map (fun i => (prefix ++ str.of_int i)%string) l) ->
  Dict.keys
    (properties
       (fold_left
          (fun self i =>
             set_properties
               (Dict.set (prefix ++ str.of_int i) [] (properties self)) self)
          l self))
  = Dict.keys (properties self)
    ++ map (fun i => (prefix ++ str.of_int i)%string) l.
Proof.
  revert self. induction l as [| i l IH]; intros self H; simpl.
  - now rewrite app_nil_r.
  - rewrite IH; simpl.
    + rewrite DictFacts.keys_set_new, <- app_assoc; [reflexivity |].
      destruct (Dict.mem (prefix ++ str.of_int i) (properties self)) eqn:M;
        [| reflexivity].
      apply DictFacts.mem_In_keys in M.
      apply NoDup_remove_2 in H. exfalso. apply H.
      apply in_or_app. now left.
    + rewrite DictFacts.keys_set_new, <- app_assoc; [exact H |].
      destruct (Dict.mem (prefix ++ str.of_int i) (properties self)) eqn:M;
        [| reflexivity].
      apply DictFacts.mem_In_keys in M.
      apply NoDup_remove_2 in H. exfalso. apply H.
      apply in_or_app. now left.
Qed.

Lemma keys_init (prefix : string) (count : Z) :
  Dict.keys (properties (init (Some prefix) count))
  = if String.eqb prefix EmptyString then [] else axis_names prefix count.
Proof.
  unfold init. destruct (String.eqb prefix EmptyString); simpl.
  - reflexivity.
  - destruct (Z.eqb_spec count 0) as [-> | Hne]; simpl.
    + reflexivity.
    + rewrite keys_declared; simpl; [reflexivity |].
      apply NoDup_axis_names.
Qed.

(** C6, as the code has it. Construction with a prefix that is not the
    empty string declares the axes [prefix1] to [prefixN] for a count [N],
    in this order and all different, so that there are [N] of them for a
    count that is not negative; it declares no axis when the prefix is
    omitted or empty or when the count is zero. No call of [add_report]
    changes the keys of [properties], whatever the properties of the cases
    of the report. *)
Theorem property_axes_fixed_at_construction :
  (forall prefix count,
     Dict.keys (properties (init (Some prefix) count))
     = (if String.eqb prefix EmptyString then []
        else axis_names prefix count)
     /\ NoDup (axis_names prefix count)
     /\ length (axis_names prefix count) = Z.to_nat count)
  /\ (forall count, Dict.keys (properties (init None count)) = [])
  /\ (forall prop_prefix, Dict.keys (properties (init prop_prefix 0)) = [])
  /\ (forall filename parsed self,
        exists self',
          add_report filename parsed self = Ok self'
          /\ Dict.keys (properties self') = Dict.keys (properties self))
  /\ (forall files self,
        exists self',
          add_reports files self = Ok self'
          /\ Dict.keys (properties self') = Dict.keys (properties self)).
Proof.
  split; [| split; [| split; [| split]]].
  - intros prefix count.
    auto using keys_init, NoDup_axis_names, length_axis_names.
  - reflexivity.
  - intros [prefix |]; [| reflexivity].
    rewrite keys_init. now destruct (String.eqb prefix EmptyString).
  - intros filename parsed self.
    destruct (add_report_applies filename parsed self) as (self' & E & _ & A).
    exists self'. split; [exact E |]. destruct A as (_ & P & _). exact P.
  - intros files self.
    destruct (add_reports_applies files self) as (self' & E & _ & A).
    exists self'. split; [exact E |]. destruct A as (_ & P & _). exact P.
Qed.

(** C6 as it is stated fails for the empty prefix: with the configuration
    of an empty prefix and a count of three, the three axes [1], [2] and
    [3] are not declared. *)
Lemma empty_prefix_declares_no_axis :
  axis_names EmptyString 3 = ["1"; "2"; "3"]
  /\ Dict.keys (properties (init (Some EmptyString) 3))
     <> axis_names EmptyString 3
  /\ length (Dict.keys (properties (init (Some EmptyString) 3)))
     <> Z.to_nat 3.
Proof.
  split; [reflexivity |]. split; vm_compute; discriminate.
Qed.

(** ** Adding a report twice *)

Lemma set_idempotent {V : Type} (k : string) (v : V) (d : Dict.t V) :
  Dict.set k v (Dict.set k v d) = Dict.set k v d.
Proof.
  induction d as [| [k' v'] d IH]; simpl.
  - now rewrite String.eqb_refl.
  - destruct (String.eqb k k') eqn:E; simpl; rewrite E;
      [reflexivity | now rewrite IH].
Qed.

(** C8. Adding the same report a second time under the same base name
    leaves every entry of [reports], of [classes] and of [cases] as the
    first call left it, the entries under the axis of the report among
    them, and the report is registered under its base name. The counters
    are raised twice: each by twice the number of cases of the report with
    its outcome, and their sum by twice the number of cases. *)
Theorem second_add_report_overwrites (filename : string)
  (parsed : parser.Junit) (self : ReportMatrix) :
  exists once twice,
    add_report filename parsed self = Ok once
    /\ add_report filename parsed once = Ok twice
    /\ reports twice = reports once
    /\ Dict.get (os_path.basename filename) (reports twice) = Some parsed
    /\ (forall c a,
          lookup2 c a (classes twice) = lookup2 c a (classes once))
    /\ (forall c n a,
          lookup3 c n a (cases twice) = lookup3 c n a (cases once))
    /\ (forall o,
          Dict.get_default o 0%Z (result_stats twice)
          = (Dict.get_default o 0 (result_stats self)
             + 2 * count_with_outcome o (report_cases parsed))%Z)
    /\ counter_total (result_stats twice)
       = (counter_total (result_stats self)
          + 2 * Z.of_nat (length (report_cases parsed)))%Z.
Proof.
  destruct (add_report_applies filename parsed self) as (s1 & E1 & R1 & A1).
  destruct (add_report_applies filename parsed s1) as (s2 & E2 & R2 & A2).
  destruct A1 as (_ & P1 & S1 & C1 & K1 & _).
  destruct A2 as (_ & P2 & S2 & C2 & K2 & _).
  simpl in P1, S1, C1, K1, P2, S2, C2, K2. rewrite P1 in *.
  rewrite counted_report_effect in S1, S2.
  exists s1, s2. split; [exact E1 |]. split; [exact E2 |].
  split; [now rewrite R2, R1, set_idempotent |].
  split; [rewrite R2; apply DictFacts.get_set_same |].
  split; [intros c a; now rewrite K2, K1, lookup_after_idempotent |].
  split; [intros c n a; now rewrite C2, C1, lookup_after_idempotent |].
  split.
  - intros o. rewrite S2, get_default_counted, S1, get_default_counted. lia.
  - rewrite S2, counter_total_counted, S1, counter_total_counted, length_map.
    lia.
Qed.

(** ** The axes of a construction come out in the order of their numbers *)























(** ** The links of the HTML matrix *)

Lemma first_key_set {V : Type} (k k' : string) (v : V) (d : Dict.t V) :
  first (Dict.keys d) = Ok k -> first (Dict.keys (Dict.set k' v d)) = Ok k.
Proof.
  destruct d as [| [k0 v0] d]; simpl; [discriminate |].
  now destruct (String.eqb k' k0).
Qed.

Lemma first_key_run (files : list (string * parser.Junit)) :
  forall (d : Dict.t parser.Junit) (k : string),
    first (Dict.keys d) = Ok k ->
    first (Dict.keys (run_reports files d)) = Ok k.
Proof.
  unfold run_reports.
  induction files as [| f files IH]; intros d k H; simpl; [exact H |].
  apply IH. now apply first_key_set.
Qed.

(** C10. In the HTML matrix the link of every cell leads to the page of the
    first key of [reports], the base name of the first report added, with
    [.html] appended, and to the anchor of the case of the cell, whichever
    report the case came from. After a run of at least one report on a new
    matrix, [list(self.reports.keys())[0]] is that base name, and the cell
    of every axis of every registered case is rendered without an
    exception. *)
Theorem html_links_target_first_report {po : ParserOutcomes}
  (prop_prefix : option string) (prop_count : Z) (filename : string)
  (parsed : parser.Junit) (files : list (string * parser.Junit)) :
  exists self,
    add_reports ((filename, parsed) :: files) (init prop_prefix prop_count)
    = Ok self
    /\ first (Dict.keys (reports self)) = Ok (os_path.basename filename)
    /\ forall classname casename of_class of_case row axis,
         Dict.get classname (cases self) = Some of_class ->
         Dict.get casename of_class = Some of_case ->
         exists row',
           summary_cell classname casename self row axis = Ok row'
           /\ forall testcase,
                Dict.get axis of_case = Some testcase ->
                parser.outcome testcase <> ABSENT ->
                celltds row'
                = (celltds row ++ "<td class='testcase-cell "
                   ++ parser.outcome testcase ++ "'>"
                   ++ ("<a class='tooltip-parent testcase-link' href='"
                       ++ os_path.basename filename ++ ".html#"
                       ++ parser.anchor testcase ++ "'>"
                       ++ short_outcome HtmlReportMatrix_class
                            (parser.outcome testcase)
                       ++ ("<div class='tooltip'>("
                           ++ str.title (parser.outcome testcase) ++ ") "
                           ++ axis ++ "</div>")
                       ++ "</a>")
                   ++ "</td>")%string.
Proof.
  destruct (add_reports_applies ((filename, parsed) :: files)
              (init prop_prefix prop_count)) as (self & E & R & _).
  exists self. split; [exact E |].
  assert (F : first (Dict.keys (reports self))
              = Ok (os_path.basename filename)).
  { rewrite R.
    destruct (init_attributes prop_prefix prop_count) as (-> & _).
    simpl. now apply first_key_run. }
  split; [exact F |].
  intros classname casename of_class of_case row axis Hc Hn.
  unfold summary_cell, getitem, Dict.mem. rewrite Hc. cbn [bind].
  rewrite Hn. cbn [bind]. rewrite F.
  destruct (Dict.get axis of_case) as [testcase |]; cbn [negb bind].
  - eexists. split; [reflexivity |].
    intros tc [= <-] Hne. cbn [celltds].
    apply String.eqb_neq in Hne. rewrite Hne. reflexivity.
  - eexists. split; [reflexivity |]. discriminate.
Qed.

(** A run of C10: in the matrix of the two reports the cell of the axis
    REQ2 holds the case of the second report, and its link leads to the
    page of the first. *)
Lemma html_links_target_first_report_witness :
  exists self row',
    add_reports two_reports (init (Some "REQ") 2) = Ok self
    /\ first (Dict.keys (reports self)) = Ok "fileA.xml"
    /\ lookup3 "classY" "caseZ" "REQ2" (cases self) = Some case_B
    /\ @summary_cell junit_outcomes "classY" "caseZ" self
         {| case_results := []; celltds := EmptyString;
            property_class := [] |} "REQ2" = Ok row'
    /\ celltds row'
       = "<td class='testcase-cell failed'><a class='tooltip-parent testcase-link' href='fileA.xml.html#classY.caseZ-B'>f<div class='tooltip'>(Failed) REQ2</div></a></td>".
Proof.
  destruct (@html_links_target_first_report junit_outcomes (Some "REQ") 2
              "out/fileA.xml" report_A [("out/fileB.xml", report_B)])
    as (self & E & F & Cells).
  change (add_reports two_reports (init (Some "REQ") 2) = Ok self) in E.
  assert (E' := E). vm_compute in E'. injection E' as E'.
  assert (Hc : exists of_class of_case,
             Dict.get "classY" (cases self) = Some of_class
             /\ Dict.get "caseZ" of_class = Some of_case
             /\ Dict.get "REQ2" of_case = Some case_B).
  { rewrite <- E'. do 2 eexists. repeat split; reflexivity. }
  destruct Hc as (of_class & of_case & Hc & Hn & Ha).
  destruct (Cells "classY" "caseZ" of_class of_case
              {| case_results := []; celltds := EmptyString;
                 property_class := [] |} "REQ2" Hc Hn) as (row' & Er & Hr).
  exists self, row'. split; [exact E |]. split; [exact F |].
  split; [unfold lookup3, lookup2; now rewrite Hc, Hn |].
  split; [exact Er |].
  rewrite (Hr case_B Ha); [reflexivity | discriminate].
Defined.

(** * Further properties of the module *)

(** ** The reports mapping *)

Lemma get_run_reports (files : list (string * parser.Junit)) :
  forall (d : Dict.t parser.Junit) (k : string),
    Dict.get k (run_reports files d)
    = lookup_after String.eqb (registered files) k (Dict.get k d).
Proof.
  unfold run_reports, lookup_after.
  induction files as [| [f r] files IH]; intros d k; simpl; [reflexivity |].
  rewrite IH, DictFacts.get_set.
  destruct (last_write String.eqb k (registered files)); [reflexivity |].
  now destruct (String.eqb k (os_path.basename f)).
Qed.

(** X1. After a run the reports mapping holds, under every base name, the
    report that was added last under it, and what it held before under the
    other keys. *)
Theorem reports_hold_the_last_report (files : list (string * parser.Junit))
  (self : ReportMatrix) :
  exists self',
    add_reports files self = Ok self'
    /\ forall k,
         Dict.get k (reports self')
         = lookup_after String.eqb (registered files) k
             (Dict.get k (reports self)).
Proof.
  destruct (add_reports_applies files self) as (self' & E & R & _).
  exists self'. split; [exact E |]. intros k. rewrite R.
  apply get_run_reports.
Qed.

Lemma has_slash_app (a b : string) :
  has_slash (a ++ b) = has_slash a || has_slash b.
Proof.
  unfold has_slash.
  induction a as [| c a IH]; cbn [append list_ascii_of_string existsb];
    [reflexivity |].
  rewrite IH. apply orb_assoc.
Qed.

Lemma basename_cons (c : ascii) (p : string) :
  os_path.basename (String c p)
  = if has_slash p then os_path.basename p
    else if Ascii.eqb c "/" then p else String c p.
Proof.
  reflexivity.
Qed.

(** The base name of [directory/name]. *)
Lemma basename_join (directory name : string) :
  has_slash name = false ->
  os_path.basename (directory ++ "/" ++ name) = name.
Proof.
  intros H. induction directory as [| c directory IH].
  - change (EmptyString ++ "/" ++ name)%string with (String "/" name).
    rewrite basename_cons, H. reflexivity.
  - change (String c directory ++ "/" ++ name)%string
      with (String c (directory ++ "/" ++ name)).
    rewrite basename_cons, has_slash_app.
    change (has_slash ("/" ++ name)) with (true || has_slash name).
    cbn [orb]. rewrite orb_true_r. exact IH.
Qed.

(** X2. Two files with the same name in two directories are one report for
    the matrix: the second [add_report] finds the key of the first, leaves
    the keys of [reports] as they are, and its report replaces the first
    one. *)
Theorem same_name_in_two_directories (dir1 dir2 name : string)
  (r1 r2 : parser.Junit) (self : ReportMatrix) :
  has_slash name = false ->
  exists s1 s2,
    add_report (dir1 ++ "/" ++ name) r1 self = Ok s1
    /\ add_report (dir2 ++ "/" ++ name) r2 s1 = Ok s2
    /\ Dict.get name (reports s1) = Some r1
    /\ Dict.get name (reports s2) = Some r2
    /\ Dict.keys (reports s2) = Dict.keys (reports s1).
Proof.
  intros H.
  destruct (add_report_applies (dir1 ++ "/" ++ name) r1 self)
    as (s1 & E1 & R1 & _).
  destruct (add_report_applies (dir2 ++ "/" ++ name) r2 s1)
    as (s2 & E2 & R2 & _).
  rewrite (basename_join dir1 name H) in R1.
  rewrite (basename_join dir2 name H) in R2.
  exists s1, s2. split; [exact E1 |]. split; [exact E2 |].
  split; [rewrite R1; apply DictFacts.get_set_same |].
  split; [rewrite R2; apply DictFacts.get_set_same |].
  rewrite R2. apply DictFacts.keys_set_mem.
  unfold Dict.mem. now rewrite R1, DictFacts.get_set_same.
Qed.

(** A run of X2: [fileA.xml] in the directories [monday] and [tuesday]. *)
Lemma same_name_in_two_directories_witness :
  has_slash "fileA.xml" = false
  /\ exists s1 s2,
       add_report ("monday" ++ "/" ++ "fileA.xml") report_A (init None 0)
       = Ok s1
       /\ add_report ("tuesday" ++ "/" ++ "fileA.xml") report_B s1 = Ok s2
       /\ Dict.get "fileA.xml" (reports s1) = Some report_A
       /\ Dict.get "fileA.xml" (reports s2) = Some report_B
       /\ Dict.keys (reports s2) = Dict.keys (reports s1).
Proof.
  split; [reflexivity |].
  apply (same_name_in_two_directories "monday" "tuesday" "fileA.xml"
           report_A report_B (init None 0)).
  reflexivity.
Defined.

(** ** The order of the reports *)

Lemma NoDup_keys_set {V : Type} (k : string) (v : V) (d : Dict.t V) :
  NoDup (Dict.keys d) -> NoDup (Dict.keys (Dict.set k v d)).
Proof.
  intros H. rewrite DictFacts.keys_set.
  destruct (Dict.mem k d) eqn:M; [exact H |].
  apply NoDup_app; [exact H | repeat constructor; auto | ].
  intros x Hx [<- | []].
  apply DictFacts.mem_In_keys in Hx. congruence.
Qed.

Lemma NoDup_keys_run (files : list (string * parser.Junit)) :
  forall d, NoDup (Dict.keys d) -> NoDup (Dict.keys (run_reports files d)).
Proof.
  unfold run_reports.
  induction files as [| f files IH]; intros d H; simpl; [exact H |].
  apply IH. now apply NoDup_keys_set.
Qed.

Lemma In_keys_run (files : list (string * parser.Junit)) (k : string) :
  forall d,
    In k (Dict.keys (run_reports files d))
    <-> In k (Dict.keys d) \/ In k (map fst (registered files)).
Proof.
  unfold run_reports.
  induction files as [| f files IH]; intros d; simpl; [tauto |].
  rewrite IH, <- !DictFacts.mem_In_keys, DictFacts.mem_set.
  rewrite orb_true_iff, String.eqb_eq.
  split; [intros [[-> | H] | H] | intros [H | [<- | H]]]; auto.
Qed.

Lemma ltb_asymmetric (a b : string) :
  @Ok bool (str.ltb a b) = Ok true -> @Ok bool (str.ltb b a) = Ok false.
Proof.
  unfold str.ltb. rewrite (String.compare_antisym a b).
  destruct (String.compare b a); simpl; intros H;
    try discriminate; reflexivity.
Qed.

(** Of two different strings one is below the other. *)
Lemma ltb_total (a b : string) :
  a <> b -> str.ltb b a = false -> str.ltb a b = true.
Proof.
  unfold str.ltb. intros Hne. rewrite (String.compare_antisym a b).
  destruct (String.compare b a) eqn:E; simpl; try discriminate; auto.
  apply String.compare_eq_iff in E. congruence.
Qed.

Lemma Sorted_strict (l : list string) :
  NoDup l ->
  Sorted (fun a b => @Ok bool (str.ltb b a) = Ok false) l ->
  Sorted (fun a b => str.ltb a b = true) l.
Proof.
  induction l as [| a l IH]; intros Hnd Hs; [constructor |].
  inversion Hnd as [| ? ? Ha Hl]; subst.
  inversion Hs as [| ? ? Hs' Hd]; subst.
  constructor; [now apply IH |].
  destruct Hd as [| b l Hb]; constructor.
  apply ltb_total; [| now injection Hb].
  intros ->. apply Ha. now left.
Qed.

(** X3. [report_order] after a run on a new matrix never raises and lists
    the base names of the reports added, each once, every name below the
    one that follows it. *)
Theorem report_order_lists_the_base_names (prop_prefix : option string)
  (prop_count : Z) (files : list (string * parser.Junit)) :
  exists self order,
    add_reports files (init prop_prefix prop_count) = Ok self
    /\ report_order self = Ok order
    /\ (forall k,
          In k order
          <-> exists file, In file files /\ os_path.basename (fst file) = k)
    /\ NoDup order
    /\ Sorted (fun a b => str.ltb a b = true) order.
Proof.
  destruct (add_reports_applies files (init prop_prefix prop_count))
    as (self & E & R & _).
  destruct (init_attributes prop_prefix prop_count) as (R0 & _).
  rewrite R0 in R.
  destruct (sorted_by_sorted (fun a b => Ok (str.ltb a b)) (fun k => k)
              ltb_asymmetric (Dict.keys (reports self)))
    as (order & Eo & P & S).
  { intros x y _ _. eauto. }
  assert (Hnd : NoDup order).
  { apply (Permutation_NoDup (Permutation_sym P)). rewrite R.
    apply NoDup_keys_run. constructor. }
  exists self, order. split; [exact E |]. split; [exact Eo |].
  split; [| split; [exact Hnd | now apply Sorted_strict]].
  intros k. split.
  - intros Hk. apply (Permutation_in _ P) in Hk. rewrite R in Hk.
    apply In_keys_run in Hk. destruct Hk as [[] | Hk].
    unfold registered in Hk. rewrite map_map in Hk.
    apply in_map_iff in Hk. destruct Hk as (file & Hf & Hin). eauto.
  - intros (file & Hin & Hf).
    apply (Permutation_in _ (Permutation_sym P)). rewrite R.
    apply In_keys_run. right. unfold registered. rewrite map_map.
    apply in_map_iff. eauto.
Qed.

(** ** What a report writes and prints *)

Lemma In_concat_map {A B : Type} (f : A -> list B) (l : list A) (y : B) :
  In y (concat (map f l)) <-> exists x, In x l /\ In y (f x).
Proof.
  rewrite <- flat_map_concat_map. apply in_flat_map.
Qed.

Lemma class_writes_concat (es : list effect) :
  class_writes (effect_concat es) = concat (map class_writes es).
Proof.
  induction es as [| e es IH]; simpl; [reflexivity | now rewrite IH].
Qed.

Lemma In_report_classes (parsed : parser.Junit) (c : string)
  (t : parser.Class) :
  In (c, t) (report_classes parsed)
  <-> exists suite,
        In suite (parser.suites parsed)
        /\ In c (Dict.keys (parser.classes suite))
        /\ Dict.get c (parser.classes suite) = Some t.
Proof.
  unfold report_classes, suite_classes. rewrite in_flat_map.
  split; intros (suite & Hs & H); exists suite; (split; [exact Hs |]).
  - apply in_flat_map in H. destruct H as (k & Hk & H).
    destruct (Dict.get k (parser.classes suite)) as [t' |] eqn:G;
      [| contradiction].
    destruct H as [[= -> ->] | []]. auto.
  - destruct H as [Hk G]. apply in_flat_map. exists c.
    split; [exact Hk |]. rewrite G. now left.
Qed.

Lemma In_report_class_cases (parsed : parser.Junit) (c : string)
  (tc : parser.Case) :
  In (c, tc) (report_class_cases parsed)
  <-> exists t, In (c, t) (report_classes parsed) /\ In tc (parser.cases t).
Proof.
  unfold report_class_cases, class_cases. rewrite in_flat_map. split.
  - intros ([c' t] & Ht & H). simpl in H. apply in_map_iff in H.
    destruct H as (tc' & [= -> ->] & Hin). eauto.
  - intros (t & Ht & Hin). exists (c, t). split; [exact Ht |].
    simpl. apply in_map_iff. eauto.
Qed.

(** The entries that [add_report] writes into [cases] are those of the
    cases of the report. *)
Lemma In_case_writes (axes : list string) (filename : string)
  (parsed : parser.Junit) (k : string * string * string) (v : parser.Case) :
  In (k, v) (case_writes (report_effect axes filename parsed))
  <-> exists c tc,
        In (c, tc) (report_class_cases parsed)
        /\ In (k, v) (case_writes (case_effect axes filename c tc)).
Proof.
  unfold report_effect. rewrite case_writes_concat, map_map, In_concat_map.
  split.
  - intros (suite & Hs & H). unfold suite_effect in H.
    rewrite case_writes_concat, map_map, In_concat_map in H.
    destruct H as (c & Hc & H). unfold class_effect in H.
    destruct (Dict.get c (parser.classes suite)) as [t |] eqn:G;
      [| contradiction].
    simpl in H. rewrite case_writes_concat, map_map, In_concat_map in H.
    destruct H as (tc & Htc & H). exists c, tc. split; [| exact H].
    apply In_report_class_cases. exists t. split; [| exact Htc].
    apply In_report_classes. eauto.
  - intros (c & tc & Hin & H). apply In_report_class_cases in Hin.
    destruct Hin as (t & Ht & Htc). apply In_report_classes in Ht.
    destruct Ht as (suite & Hs & Hc & G). exists suite. split; [exact Hs |].
    unfold suite_effect.
    rewrite case_writes_concat, map_map, In_concat_map.
    exists c. split; [exact Hc |]. unfold class_effect. rewrite G. simpl.
    rewrite case_writes_concat, map_map, In_concat_map. eauto.
Qed.

Lemma In_class_writes (axes : list string) (filename : string)
  (parsed : parser.Junit) (k : string * string) (t : parser.Class) :
  In (k, t) (class_writes (report_effect axes filename parsed))
  <-> exists c, In (c, t) (report_classes parsed) /\ k = (c, filename).
Proof.
  unfold report_effect. rewrite class_writes_concat, map_map, In_concat_map.
  assert (Z : forall c l,
            class_writes
              (effect_concat (map (case_effect axes filename c) l)) = []).
  { intros c l. rewrite class_writes_concat.
    induction l as [| tc l IH]; simpl; [reflexivity |].
    rewrite IH, app_nil_r. unfold case_effect. simpl.
    rewrite class_writes_concat.
    induction (parser.properties tc) as [| p ps IHp]; simpl; [reflexivity |].
    rewrite IHp, app_nil_r. unfold property_effect.
    now destruct (contains (parser.value p) axes). }
  split.
  - intros (suite & Hs & H). unfold suite_effect in H.
    rewrite class_writes_concat, map_map, In_concat_map in H.
    destruct H as (c & Hc & H). unfold class_effect in H.
    destruct (Dict.get c (parser.classes suite)) as [t' |] eqn:G;
      [| contradiction].
    simpl in H. rewrite Z in H. destruct H as [[= <- <-] | []].
    exists c. split; [| reflexivity]. apply In_report_classes. eauto.
  - intros (c & Ht & ->). apply In_report_classes in Ht.
    destruct Ht as (suite & Hs & Hc & G). exists suite. split; [exact Hs |].
    unfold suite_effect.
    rewrite class_writes_concat, map_map, In_concat_map.
    exists c. split; [exact Hc |]. unfold class_effect. rewrite G. simpl.
    now left.
Qed.

Lemma key2_eqb_eq (a b : string * string) : key2_eqb a b = true <-> a = b.
Proof.
  destruct a as [a1 a2], b as [b1 b2]. unfold key2_eqb. simpl.
  rewrite andb_true_iff, !String.eqb_eq. split.
  - intros [-> ->]. reflexivity.
  - intros [= -> ->]. auto.
Qed.

(** An entry of a case: the row of its class and stripped name, under the
    axis of the report or under a declared axis that a property names. *)
Lemma In_case_writes_case (axes : list string) (filename c : string)
  (tc : parser.Case) (k : string * string * string) (v : parser.Case) :
  In (k, v) (case_writes (case_effect axes filename c tc)) ->
  v = tc
  /\ exists a,
       k = (c, str.strip (parser.basename tc), a)
       /\ (a = filename
           \/ exists p, In p (parser.properties tc)
                        /\ contains (parser.value p) axes = true
                        /\ a = parser.value p).
Proof.
  rewrite case_writes_case_effect. intros [H | H].
  - injection H as <- <-. eauto.
  - apply in_map_iff in H. destruct H as (p & H & Hp).
    injection H as <- <-. apply filter_In in Hp. destruct Hp as [Hp Hc].
    split; [reflexivity |]. eauto 7.
Qed.

(** X4. [add_report] changes [cases] and [classes] only where the report
    has something to store: an entry of [cases] under an axis that is
    neither the base name of the report nor a declared property axis is
    left as it was, and so is every entry of a row that no case of the
    report names; an entry of [classes] under another axis than the base
    name of the report is left as it was. *)
Theorem add_report_writes_under_its_axes (filename : string)
  (parsed : parser.Junit) (self : ReportMatrix) :
  exists self',
    add_report filename parsed self = Ok self'
    /\ (forall c n a,
          a <> os_path.basename filename ->
          Dict.mem a (properties self) = false ->
          lookup3 c n a (cases self') = lookup3 c n a (cases self))
    /\ (forall c n a,
          (forall tc, In (c, tc) (report_class_cases parsed) ->
                      str.strip (parser.basename tc) <> n) ->
          lookup3 c n a (cases self') = lookup3 c n a (cases self))
    /\ (forall c a,
          a <> os_path.basename filename ->
          lookup2 c a (classes self') = lookup2 c a (classes self)).
Proof.
  destruct (add_report_applies filename parsed self) as (self' & E & _ & A).
  destruct A as (_ & _ & _ & C & K & _). simpl in C, K.
  exists self'. split; [exact E |].
  assert (W : forall c n a v,
            last_write key3_eqb (c, n, a)
              (case_writes
                 (report_effect (Dict.keys (properties self))
                    (os_path.basename filename) parsed)) = Some v ->
            exists tc,
              In (c, tc) (report_class_cases parsed)
              /\ n = str.strip (parser.basename tc)
              /\ (a = os_path.basename filename
                  \/ Dict.mem a (properties self) = true)).
  { intros c n a v Hw. apply last_write_Some in Hw.
    destruct Hw as (k' & Hin & Ek). apply key3_eqb_eq in Ek. subst k'.
    apply In_case_writes in Hin. destruct Hin as (c' & tc & Hin & Hw).
    apply In_case_writes_case in Hw.
    destruct Hw as (_ & a' & Hk & Ha). injection Hk as -> -> ->.
    exists tc. split; [exact Hin |]. split; [reflexivity |].
    destruct Ha as [-> | (p & _ & Hc & ->)]; [now left | right].
    now rewrite mem_contains_keys. }
  split; [| split].
  - intros c n a Ha Hm. rewrite C. unfold lookup_after.
    destruct (last_write key3_eqb (c, n, a) _) as [v |] eqn:Hw;
      [| reflexivity].
    destruct (W _ _ _ _ Hw) as (tc & _ & _ & [H | H]); congruence.
  - intros c n a Hn. rewrite C. unfold lookup_after.
    destruct (last_write key3_eqb (c, n, a) _) as [v |] eqn:Hw;
      [| reflexivity].
    destruct (W _ _ _ _ Hw) as (tc & Hin & Heq & _).
    exfalso. apply (Hn tc Hin). now symmetry.
  - intros c a Ha. rewrite K. unfold lookup_after.
    destruct (last_write key2_eqb (c, a) _) as [t |] eqn:Hw;
      [| reflexivity].
    apply last_write_Some in Hw. destruct Hw as (k' & Hin & Ek).
    apply key2_eqb_eq in Ek. subst k'. apply In_class_writes in Hin.
    destruct Hin as (c' & _ & Hk). injection Hk as -> ->. contradiction.
Qed.

(** A run of X4: adding the second report leaves the entry of the first
    under its own axis as it was. *)
Lemma add_report_writes_under_its_axes_witness :
  "fileA.xml" <> os_path.basename "out/fileB.xml"
  /\ exists s1 s2,
       add_report "out/fileA.xml" report_A (init (Some "REQ") 2) = Ok s1
       /\ add_report "out/fileB.xml" report_B s1 = Ok s2
       /\ lookup3 "classY" "caseZ" "fileA.xml" (cases s2) = Some case_A.
Proof.
  split; [discriminate |].
  destruct (add_report_applies "out/fileA.xml" report_A
              (init (Some "REQ") 2)) as (s1 & E1 & _ & _).
  destruct (add_report_writes_under_its_axes "out/fileB.xml" report_B s1)
    as (s2 & E2 & F & _).
  exists s1, s2. split; [exact E1 |]. split; [exact E2 |].
  rewrite (F "classY" "caseZ" "fileA.xml").
  - vm_compute in E1. injection E1 as <-. reflexivity.
  - discriminate.
  - vm_compute in E1. injection E1 as <-. reflexivity.
Defined.

(** X5. After [add_report] every case of the report has an entry under the
    axis of the report, in the row of its class and of its base name with
    the white space around it removed; the entry is a case of the report
    with that class and that stripped name, the last one that the loops
    met. A declared axis that a property of the case names has such an
    entry too. *)
Theorem every_case_is_stored (filename : string) (parsed : parser.Junit)
  (self : ReportMatrix) :
  exists self',
    add_report filename parsed self = Ok self'
    /\ forall c tc,
         In (c, tc) (report_class_cases parsed) ->
         (exists stored,
            lookup3 c (str.strip (parser.basename tc))
              (os_path.basename filename) (cases self') = Some stored
            /\ In (c, stored) (report_class_cases parsed)
            /\ str.strip (parser.basename stored)
               = str.strip (parser.basename tc))
         /\ forall p,
              In p (parser.properties tc) ->
              Dict.mem (parser.value p) (properties self) = true ->
              exists stored,
                lookup3 c (str.strip (parser.basename tc)) (parser.value p)
                  (cases self') = Some stored
                /\ In (c, stored) (report_class_cases parsed)
                /\ str.strip (parser.basename stored)
                   = str.strip (parser.basename tc).
Proof.
  destruct (add_report_applies filename parsed self) as (self' & E & _ & A).
  destruct A as (_ & _ & _ & C & _). simpl in C.
  exists self'. split; [exact E |].
  set (W := case_writes
              (report_effect (Dict.keys (properties self))
                 (os_path.basename filename) parsed)) in *.
  assert (G : forall c tc a,
            In (c, str.strip (parser.basename tc), a, tc) W ->
            exists stored,
              lookup3 c (str.strip (parser.basename tc)) a (cases self')
              = Some stored
              /\ In (c, stored) (report_class_cases parsed)
              /\ str.strip (parser.basename stored)
                 = str.strip (parser.basename tc)).
  { intros c tc a Hin.
    destruct (last_write_In key3_eqb
                (c, str.strip (parser.basename tc), a) _ _ _ Hin)
      as [stored Hs]; [now apply key3_eqb_eq |].
    exists stored. rewrite C. unfold lookup_after. rewrite Hs.
    split; [reflexivity |].
    apply last_write_Some in Hs. destruct Hs as (k' & Hin' & Ek).
    apply key3_eqb_eq in Ek. subst k'. apply In_case_writes in Hin'.
    destruct Hin' as (c' & tc' & Hcc & Hw).
    apply In_case_writes_case in Hw.
    destruct Hw as (-> & a' & Hk & _). injection Hk as -> Hn _.
    split; [exact Hcc | now symmetry]. }
  intros c tc Hin. split.
  - apply G. apply In_case_writes. exists c, tc. split; [exact Hin |].
    rewrite case_writes_case_effect. now left.
  - intros p Hp Hm. apply G. apply In_case_writes. exists c, tc.
    split; [exact Hin |]. rewrite case_writes_case_effect. right.
    apply in_map_iff. exists p. split; [reflexivity |].
    apply filter_In. split; [exact Hp |]. now rewrite <- mem_contains_keys.
Qed.

(** A run of X5: the case of the first report. *)
Lemma every_case_is_stored_witness :
  In ("classY", case_A) (report_class_cases report_A)
  /\ exists self' stored,
       add_report "out/fileA.xml" report_A (init (Some "REQ") 2) = Ok self'
       /\ lookup3 "classY" "caseZ" "fileA.xml" (cases self') = Some stored
       /\ In ("classY", stored) (report_class_cases report_A).
Proof.
  split; [simpl; auto |].
  destruct (every_case_is_stored "out/fileA.xml" report_A
              (init (Some "REQ") 2)) as (self' & E & H).
  destruct (H "classY" case_A) as ((stored & L & Hin & _) & _);
    [simpl; auto |].
  exists self', stored. auto.
Defined.

Lemma warnings_suite_effect (axes : list string) (filename : string)
  (suite : parser.Suite) :
  warnings (suite_effect axes filename suite)
  = map unrecognized
      (filter (fun p => negb (contains (parser.value p) axes))
              (flat_map parser.properties (suite_cases suite))).
Proof.
  unfold suite_effect, suite_cases. rewrite warnings_concat.
  induction (Dict.keys (parser.classes suite)) as [| k ks IH];
    cbn [map concat flat_map]; [reflexivity |].
  rewrite IH, flat_map_app, filter_app, map_app. f_equal.
  unfold class_effect.
  destruct (Dict.get k (parser.classes suite)) as [subtree |];
    [| reflexivity].
  cbn [warnings effect_app app]. rewrite warnings_concat.
  induction (parser.cases subtree) as [| c cs IHc];
    cbn [map concat flat_map]; [reflexivity |].
  now rewrite warnings_case_effect, IHc, filter_app, map_app.
Qed.

Lemma warnings_run_effect (axes : list string)
  (files : list (string * parser.Junit)) :
  warnings (run_effect axes files)
  = map unrecognized
      (filter (fun p => negb (contains (parser.value p) axes))
              (run_properties files)).
Proof.
  unfold run_effect, run_properties, run_cases. rewrite warnings_concat.
  induction files as [| f fs IH]; cbn [map concat flat_map]; [reflexivity |].
  rewrite IH, !flat_map_app, filter_app, map_app. f_equal.
  unfold report_effect, report_cases. rewrite warnings_concat.
  induction (parser.suites (snd f)) as [| s ss IHs];
    cbn [map concat flat_map]; [reflexivity |].
  now rewrite warnings_suite_effect, IHs, flat_map_app, filter_app, map_app.
Qed.

(** X6. A run prints one warning for every property of every case whose
    value is not a declared axis, in the order in which the loops meet the
    properties, and nothing else; when every value is declared, it prints
    nothing. *)
Theorem run_warns_once_for_each_undeclared_property
  (files : list (string * parser.Junit)) (self : ReportMatrix) :
  exists self',
    add_reports files self = Ok self'
    /\ stdout self'
       = stdout self
         ++ map unrecognized
              (filter
                 (fun p => negb (Dict.mem (parser.value p) (properties self)))
                 (run_properties files))
    /\ ((forall p, In p (run_properties files) ->
                   Dict.mem (parser.value p) (properties self) = true) ->
        stdout self' = stdout self).
Proof.
  destruct (add_reports_applies files self) as (self' & E & _ & A).
  destruct A as (_ & _ & _ & _ & _ & O & _). simpl in O.
  rewrite warnings_run_effect in O.
  assert (F : filter (fun p => negb (contains (parser.value p)
                                       (Dict.keys (properties self))))
                (run_properties files)
              = filter (fun p => negb (Dict.mem (parser.value p)
                                         (properties self)))
                  (run_properties files)).
  { apply filter_ext. intros p. now rewrite mem_contains_keys. }
  rewrite F in O. exists self'. split; [exact E |]. split; [exact O |].
  intros H. rewrite O.
  assert (N : forall l : list parser.Property,
            (forall p, In p l ->
                       Dict.mem (parser.value p) (properties self) = true) ->
            filter (fun p => negb (Dict.mem (parser.value p)
                                     (properties self))) l = []).
  { induction l as [| p ps IH]; intros Hl; [reflexivity |].
    simpl. rewrite (Hl p (or_introl eq_refl)). simpl.
    apply IH. intros q Hq. apply Hl. now right. }
  rewrite (N _ H). apply app_nil_r.
Qed.

(** ** What the renderers rely on *)

Lemma for_each_Ok_cons {A S : Type} (body : S -> A -> result S) (x : A)
  (xs : list A) (s s' : S) :
  for_each body (x :: xs) s = Ok s' ->
  exists s1, body s x = Ok s1 /\ for_each body xs s1 = Ok s'.
Proof.
  simpl. apply bind_Ok.
Qed.

Lemma add_property_keeps (c bn : string) (tc : parser.Case)
  (s s' : ReportMatrix) (p : parser.Property) :
  add_property c bn tc s p = Ok s' ->
  casenames s' = casenames s /\ classes s' = classes s.
Proof.
  unfold add_property.
  destruct (Dict.mem (parser.value p) (properties s)); cbn [negb].
  - intros H. apply bind_Ok in H. destruct H as (tests & _ & H).
    cbv beta zeta in H. apply bind_Ok in H. destruct H as (oc & _ & H).
    apply bind_Ok in H. destruct H as (ocase & _ & H).
    injection H as <-. auto.
  - intros [= <-]. auto.
Qed.

Lemma add_properties_keep (c bn : string) (tc : parser.Case)
  (ps : list parser.Property) :
  forall s s',
    for_each (add_property c bn tc) ps s = Ok s' ->
    casenames s' = casenames s /\ classes s' = classes s.
Proof.
  induction ps as [| p ps IH]; intros s s' H.
  - injection H as <-. auto.
  - apply for_each_Ok_cons in H. destruct H as (s1 & H1 & H).
    apply add_property_keeps in H1. apply IH in H.
    destruct H1 as [E1 E2], H as [E3 E4]. split; congruence.
Qed.

(** What [add_case] does to the registry of case names: nothing, or it
    appends the stripped base name to the names of the class. *)
Lemma add_case_names (filename c : string) (s s' : ReportMatrix)
  (tc : parser.Case) :
  add_case filename c s tc = Ok s' ->
  classes s' = classes s
  /\ (casenames s' = casenames s
      \/ exists names,
           Dict.get c (casenames s) = Some names
           /\ casenames s'
              = Dict.set c (names ++ [str.strip (parser.basename tc)])
                  (casenames s)).
Proof.
  unfold add_case. intros H. cbv zeta in H.
  apply bind_Ok in H. destruct H as (s1 & H1 & H).
  apply bind_Ok in H. destruct H as (oc & _ & H).
  apply bind_Ok in H. destruct H as (oc' & _ & H).
  apply bind_Ok in H. destruct H as (ocase & _ & H).
  apply add_properties_keep in H. destruct H as [Hn Hc].
  assert (E : casenames s' = casenames s1 /\ classes s' = classes s1).
  { rewrite Hn, Hc.
    destruct (Dict.mem c (cases s1)); cbn [negb];
      match goal with
      | |- context [Dict.mem ?k ?d] => destruct (Dict.mem k d)
      end; cbn [negb]; split; reflexivity. }
  destruct E as [-> ->]. clear Hn Hc.
  destruct (Dict.mem (str.strip (parser.basename tc)) (casenames s));
    cbn [negb] in H1.
  - injection H1 as <-. auto.
  - apply bind_Ok in H1. destruct H1 as (names & G & H1).
    injection H1 as <-. apply getitem_Ok in G. split; [reflexivity |].
    right. exists names. auto.
Qed.

Lemma for_each_keeps {A S : Type} (body : S -> A -> result S)
  (I : S -> Prop) (xs : list A) :
  (forall s x s', I s -> body s x = Ok s' -> I s') ->
  forall s s', I s -> for_each body xs s = Ok s' -> I s'.
Proof.
  intros Hbody. induction xs as [| x xs IH]; intros s s' Hs H.
  - injection H as <-. exact Hs.
  - apply for_each_Ok_cons in H. destruct H as (s1 & H1 & H).
    apply (IH s1); [| exact H]. now apply (Hbody s x).
Qed.

Lemma add_case_rows (filename c : string) (s s' : ReportMatrix)
  (tc : parser.Case) :
  Dict.mem c (casenames s) = true ->
  add_case filename c s tc = Ok s' ->
  (forall c0 n a v,
     lookup3 c0 n a (cases s) = Some v ->
     exists v', lookup3 c0 n a (cases s') = Some v')
  /\ (exists v,
        lookup3 c (str.strip (parser.basename tc)) filename (cases s')
        = Some v)
  /\ (forall c', Dict.mem c' (casenames s) = true ->
                 Dict.mem c' (casenames s') = true).
Proof.
  intros Hm H.
  destruct (add_case_applies filename c s tc Hm) as (s'' & E & A & _).
  rewrite E in H. injection H as <-.
  destruct A as (_ & _ & _ & C & _ & _ & N).
  split; [| split; [| exact N]].
  - intros c0 n a v Hv. rewrite C, Hv. unfold lookup_after.
    destruct (last_write key3_eqb (c0, n, a) _); eauto.
  - rewrite C. unfold lookup_after.
    destruct (last_write_In key3_eqb
                (c, str.strip (parser.basename tc), filename)
                (c, str.strip (parser.basename tc), filename)
                (case_writes
                   (case_effect (Dict.keys (properties s)) filename c tc))
                tc) as [v Hv].
    + rewrite case_writes_case_effect. now left.
    + now apply key3_eqb_eq.
    + rewrite Hv. eauto.
Qed.

Lemma add_case_consistent (filename c : string) (s s' : ReportMatrix)
  (tc : parser.Case) :
  names_have_rows s /\ Dict.mem c (casenames s) = true ->
  add_case filename c s tc = Ok s' ->
  (names_have_rows s' /\ Dict.mem c (casenames s') = true)
  /\ classes s' = classes s
  /\ (forall c', Dict.mem c' (casenames s) = true ->
                 Dict.mem c' (casenames s') = true).
Proof.
  intros [Hrows Hm] H.
  destruct (add_case_rows _ _ _ _ _ Hm H) as (Grow & Here & Mono).
  destruct (add_case_names _ _ _ _ _ H) as (Hc & Hn).
  split; [split; [| now apply Mono] | split; [exact Hc | exact Mono]].
  intros c0 names0 n G Hin.
  destruct Hn as [Hn | (names & Gc & Hn)]; rewrite Hn in G.
  - destruct (Hrows c0 names0 n G Hin) as (a & v & L).
    destruct (Grow _ _ _ _ L) as [v' L']. eauto.
  - rewrite DictFacts.get_set in G.
    destruct (String.eqb c0 c) eqn:E.
    + apply String.eqb_eq in E. subst c0. injection G as <-.
      apply in_app_or in Hin. destruct Hin as [Hin | [<- | []]].
      * destruct (Hrows c names n Gc Hin) as (a & v & L).
        destruct (Grow _ _ _ _ L) as [v' L']. eauto.
      * destruct Here as [v L]. eauto.
    + destruct (Hrows c0 names0 n G Hin) as (a & v & L).
      destruct (Grow _ _ _ _ L) as [v' L']. eauto.
Qed.

Lemma add_cases_consistent (filename c : string) (cs : list parser.Case) :
  forall s s',
    names_have_rows s /\ Dict.mem c (casenames s) = true ->
    for_each (add_case filename c) cs s = Ok s' ->
    names_have_rows s'
    /\ classes s' = classes s
    /\ (forall c', Dict.mem c' (casenames s) = true ->
                   Dict.mem c' (casenames s') = true).
Proof.
  induction cs as [| tc cs IH]; intros s s' Hs H.
  - injection H as <-. destruct Hs. auto.
  - apply for_each_Ok_cons in H. destruct H as (s1 & H1 & H).
    destruct (add_case_consistent _ _ _ _ _ Hs H1) as (Hs1 & Hc1 & M1).
    destruct (IH s1 s' Hs1 H) as (Hr & Hc & M).
    split; [exact Hr |]. split; [congruence | auto].
Qed.

Lemma add_class_consistent (filename : string) (suite : parser.Suite)
  (s s' : ReportMatrix) (c : string) :
  consistent s -> add_class filename suite s c = Ok s' -> consistent s'.
Proof.
  intros [Ha Hb] H. unfold add_class in H.
  set (s1 := if negb (Dict.mem c (classes s))
             then set_classes (Dict.set c Dict.empty (classes s)) s
             else s) in H.
  set (s2 := if negb (Dict.mem c (casenames s1))
             then set_casenames (Dict.set c [] (casenames s1)) s1
             else s1) in H.
  cbv zeta in H.
  assert (C1 : cases s2 = cases s).
  { subst s2 s1. destruct (Dict.mem c (classes s)); cbn [negb];
      match goal with
      | |- context [Dict.mem ?k ?d] => destruct (Dict.mem k d)
      end; reflexivity. }
  assert (K2 : forall c', Dict.mem c' (classes s2) = true ->
                          c' = c \/ Dict.mem c' (classes s) = true).
  { intros c'. subst s2 s1.
    destruct (Dict.mem c (classes s)) eqn:M; cbn [negb];
      match goal with
      | |- context [Dict.mem c ?d] => destruct (Dict.mem c d)
      end; cbn [negb classes set_casenames set_classes]; auto;
      rewrite DictFacts.mem_set; intros Hm; apply orb_prop in Hm;
      destruct Hm as [Hm | Hm]; auto; left; now apply String.eqb_eq. }
  assert (N1 : casenames s1 = casenames s).
  { subst s1. now destruct (Dict.mem c (classes s)). }
  assert (N2 : Dict.mem c (casenames s2) = true
               /\ (forall c', Dict.mem c' (casenames s) = true ->
                              Dict.mem c' (casenames s2) = true)
               /\ forall c0 names0,
                    Dict.get c0 (casenames s2) = Some names0 ->
                    names0 = [] \/ Dict.get c0 (casenames s) = Some names0).
  { subst s2. rewrite <- N1.
    destruct (Dict.mem c (casenames s1)) eqn:M; cbn [negb].
    - auto.
    - cbn [casenames set_casenames]. split; [| split].
      + rewrite DictFacts.mem_set, String.eqb_refl. reflexivity.
      + intros c' Hm. rewrite DictFacts.mem_set, Hm. apply orb_true_r.
      + intros c0 names0. rewrite DictFacts.get_set.
        destruct (String.eqb c0 c); [intros [= <-] |]; auto. }
  destruct N2 as (M2 & Mono2 & Names2).
  clearbody s1 s2.
  apply bind_Ok in H. destruct H as (oc & _ & H).
  apply bind_Ok in H. destruct H as (subtree & _ & H).
  apply bind_Ok in H. destruct H as (oc' & _ & H).
  apply bind_Ok in H. destruct H as (stored & _ & H).
  apply add_cases_consistent in H.
  - destruct H as (Hr & Hc & Mono). cbn [classes casenames set_classes] in *.
    split; [| exact Hr].
    intros c' Hm. rewrite Hc in Hm. apply Mono.
    rewrite DictFacts.mem_set in Hm. apply orb_prop in Hm.
    destruct Hm as [Hm | Hm].
    + apply String.eqb_eq in Hm. now subst c'.
    + destruct (K2 c' Hm) as [-> | Hk]; [exact M2 |]. auto.
  - split; [| exact M2]. unfold names_have_rows.
    cbn [casenames cases set_classes].
    intros c0 names0 n G Hin. rewrite C1.
    destruct (Names2 c0 names0 G) as [-> | G']; [contradiction |].
    exact (Hb c0 names0 n G' Hin).
Qed.

(** [add_report] keeps a matrix consistent. *)
Lemma add_report_consistent (filename : string) (parsed : parser.Junit)
  (s s' : ReportMatrix) :
  consistent s -> add_report filename parsed s = Ok s' -> consistent s'.
Proof.
  intros Hs H. unfold add_report in H. cbv zeta in H.
  apply (for_each_keeps (add_suite (os_path.basename filename)) consistent
           (parser.suites parsed)) in H; [exact H | | exact Hs].
  intros s0 suite s1 H0 H1. unfold add_suite in H1.
  apply (for_each_keeps (add_class (os_path.basename filename) suite)
           consistent (Dict.keys (parser.classes suite))) in H1;
    [exact H1 | | exact H0].
  intros s2 c s3. apply add_class_consistent.
Qed.

Lemma add_reports_consistent (files : list (string * parser.Junit))
  (s s' : ReportMatrix) :
  consistent s -> add_reports files s = Ok s' -> consistent s'.
Proof.
  unfold add_reports. apply for_each_keeps.
  intros s0 file s1. apply add_report_consistent.
Qed.

Lemma init_consistent (prop_prefix : option string) (prop_count : Z) :
  consistent (init prop_prefix prop_count).
Proof.
  destruct (init_attributes prop_prefix prop_count)
    as (_ & _ & K & N & _).
  split.
  - intros c. rewrite K. discriminate.
  - intros c names n. rewrite N. discriminate.
Qed.

(** ** The HTML page *)

Lemma sorted_strings_sorted (xs : list string) :
  exists l,
    sorted_strings xs = Ok l
    /\ Permutation l xs
    /\ Sorted (fun a b => @Ok bool (str.ltb b a) = Ok false) l.
Proof.
  unfold sorted_strings.
  apply (sorted_by_sorted (fun a b => Ok (str.ltb a b)) (fun x => x)
           ltb_asymmetric).
  intros x y _ _. eauto.
Qed.


Lemma NoDup_set_of (xs : list string) : NoDup (set_of xs).
Proof.
  induction xs as [| y xs IH]; simpl; constructor.
  - rewrite filter_In, String.eqb_refl. intros [_ H]. discriminate.
  - now apply NoDup_filter.
Qed.


Section HtmlPage.

Context {po : ParserOutcomes} {u : str.Unicode}.
Variable get_html_head : string -> string.



Lemma get_stats_table_Ok (self : ReportMatrix) :
  exists stats, get_stats_table self = Ok stats.
Proof.
  unfold get_stats_table.
  destruct (sorted_strings_sorted (Dict.keys (result_stats self)))
    as (l & -> & P & _).
  cbn [bind].
  assert (Hl : forall o, In o l -> Dict.mem o (result_stats self) = true).
  { intros o Ho. apply DictFacts.mem_In_keys.
    now apply (Permutation_in _ P). }
  clear P. generalize "<table class='result-stats'>".
  induction l as [| o l IH]; intros stats.
  - simpl. eauto.
  - cbn [for_each]. unfold stats_row at 1.
    destruct (getitem_mem _ _ (Hl o (or_introl eq_refl))) as [count ->].
    cbn [bind]. apply IH. intros o' Ho'. apply Hl. now right.
Qed.


(** The page is not rendered where the axes cannot be put in their order:
    [summary] asks for the order of the axes when it writes the header. *)
Lemma summary_asks_for_the_order (self : ReportMatrix) (page : string) :
  summary get_html_head self = Ok page ->
  exists axes, property_order self = Ok axes.
Proof.
  unfold summary. intros H.
  apply bind_Ok in H. destruct H as ([output axis_classes] & _ & H).
  cbv zeta in H.
  apply bind_Ok in H. destruct H as (stats & _ & H).
  apply bind_Ok in H. destruct H as (axes & Ho & _).
  eauto.
Qed.

End HtmlPage.



(** X8. Without property axes the page does not show the counters: the
    statistics table is written into the header together with the first
    axis, so that for a matrix with no axis the page is the same whatever
    [result_stats] holds. *)
Theorem page_without_axes_ignores_the_counters {po : ParserOutcomes}
  {u : str.Unicode} (get_html_head : string -> string) (self : ReportMatrix)
  (stats : Dict.t Z) :
  properties self = [] ->
  summary get_html_head (set_result_stats stats self)
  = summary get_html_head self.
Proof.
  intros Hp. unfold summary.
  change (for_each (summary_class (set_result_stats stats self))
            (Dict.keys (classes (set_result_stats stats self)))
            (EmptyString, Dict.empty))
    with (for_each (summary_class self) (Dict.keys (classes self))
            (EmptyString, Dict.empty)).
  destruct (for_each (summary_class self) (Dict.keys (classes self))
              (EmptyString, Dict.empty)) as [[output axis_classes] | e];
    [| reflexivity].
  cbn [bind]. cbv zeta.
  destruct (get_stats_table_Ok (set_result_stats stats self)) as [t1 ->].
  destruct (get_stats_table_Ok self) as [t2 ->].
  cbn [bind]. unfold property_order. cbn [properties set_result_stats].
  rewrite Hp. reflexivity.
Qed.

(** A run of X8: the page of the two reports on a matrix without axes. *)
Lemma page_without_axes_ignores_the_counters_witness :
  exists self,
    add_reports two_reports (init None 0) = Ok self
    /\ properties self = []
    /\ @summary junit_outcomes plain_ascii (fun _ => EmptyString)
         (set_result_stats [] self)
       = @summary junit_outcomes plain_ascii (fun _ => EmptyString) self.
Proof.
  assert (E : exists self, add_reports two_reports (init None 0) = Ok self
                           /\ properties self = []).
  { eexists. split; [vm_compute; reflexivity | reflexivity]. }
  destruct E as (self & E & Hp). exists self.
  split; [exact E |]. split; [exact Hp |].
  apply (@page_without_axes_ignores_the_counters junit_outcomes plain_ascii
           (fun _ => EmptyString) self [] Hp).
Defined.

(** ** The statistics table *)

Lemma NoDup_keys_counted (outcomes : list string) :
  forall stats,
    NoDup (Dict.keys stats) ->
    NoDup (Dict.keys (fold_left count_outcome outcomes stats)).
Proof.
  induction outcomes as [| o os IH]; intros stats H; simpl; [exact H |].
  apply IH. unfold count_outcome. now apply NoDup_keys_set.
Qed.

Lemma stats_rows (self : ReportMatrix) (count : string -> Z)
  (order : list string) :
  (forall o, In o order -> Dict.get o (result_stats self) = Some (count o)) ->
  forall stats,
    for_each (stats_row self) order stats
    = Ok (fold_left
            (fun stats o =>
               (stats ++ "<tr><th class='" ++ o ++ "'>Tests "
                ++ str.title o ++ "<th>" ++ "<td align='right'>"
                ++ str.of_int (count o) ++ "</td></tr>")%string)
            order stats).
Proof.
  induction order as [| o order IH]; intros H stats; [reflexivity |].
  cbn [for_each fold_left]. unfold stats_row at 1, getitem.
  rewrite (H o (or_introl eq_refl)). cbn [bind].
  apply IH. intros o' Ho'. apply H. now right.
Qed.

Lemma count_with_outcome_positive (o : string) (cs : list parser.Case) :
  (count_with_outcome o cs =? 0)%Z = false
  <-> exists c, In c cs /\ parser.outcome c = o.
Proof.
  induction cs as [| c cs IH].
  - split; [discriminate | intros (c & [] & _)].
  - rewrite count_with_outcome_cons.
    pose proof (count_with_outcome_nonneg o cs) as Hnn.
    destruct (String.eqb_spec (parser.outcome c) o) as [Heq | Hne].
    + split; [intros _; exists c; split; [now left | exact Heq] |].
      intros _. apply Z.eqb_neq. lia.
    + rewrite Z.add_0_l, IH. split.
      * intros (c' & Hin & Ho). exists c'. split; [now right | exact Ho].
      * intros (c' & Hc' & Ho). destruct Hc' as [Hc' | Hc'].
        { subst c'. congruence. }
        { exists c'. split; [exact Hc' | exact Ho]. }
Qed.

(** X9. After a run on a new matrix [get_stats_table] never raises and
    writes one row for every outcome that a case of the run has, and for
    no other, in the ascending order of the outcome strings; the row holds
    the outcome, its title-cased label and the number of cases of the run
    with the outcome. *)
Theorem stats_table_lists_the_outcomes (prop_prefix : option string)
  (prop_count : Z) (files : list (string * parser.Junit)) :
  exists self order,
    add_reports files (init prop_prefix prop_count) = Ok self
    /\ (forall o,
          In o order
          <-> exists c, In c (run_cases files) /\ parser.outcome c = o)
    /\ NoDup order
    /\ Sorted (fun a b => str.ltb a b = true) order
    /\ get_stats_table self
       = Ok (fold_left
               (fun stats o =>
                  (stats ++ "<tr><th class='" ++ o ++ "'>Tests "
                   ++ str.title o ++ "<th>" ++ "<td align='right'>"
                   ++ str.of_int (count_with_outcome o (run_cases files))
                   ++ "</td></tr>")%string)
               order "<table class='result-stats'>"
             ++ "</table>")%string.
Proof.
  destruct (add_reports_applies files (init prop_prefix prop_count))
    as (self & E & _ & A).
  destruct A as (_ & _ & S & _). simpl in S.
  rewrite counted_run_effect in S.
  destruct (init_attributes prop_prefix prop_count)
    as (_ & _ & _ & _ & S0 & _).
  rewrite S0 in S.
  assert (G : forall o,
            Dict.get o (result_stats self)
            = if (count_with_outcome o (run_cases files) =? 0)%Z then None
              else Some (count_with_outcome o (run_cases files))).
  { intros o. rewrite S, get_counted. unfold Dict.get_default. simpl.
    now destruct (count_with_outcome o (run_cases files) =? 0)%Z. }
  pose proof (fun o => count_with_outcome_positive o (run_cases files))
    as C.
  destruct (sorted_strings_sorted (Dict.keys (result_stats self)))
    as (order & Eo & P & Hsorted).
  assert (Hnd : NoDup order).
  { apply (Permutation_NoDup (Permutation_sym P)). rewrite S.
    apply NoDup_keys_counted. constructor. }
  assert (Hin : forall o, In o order
                          <-> (count_with_outcome o (run_cases files) =? 0)%Z
                              = false).
  { intros o. split.
    - intros Ho. apply (Permutation_in _ P) in Ho.
      apply DictFacts.mem_In_keys in Ho. unfold Dict.mem in Ho.
      rewrite G in Ho.
      now destruct (count_with_outcome o (run_cases files) =? 0)%Z.
    - intros Ho. apply (Permutation_in _ (Permutation_sym P)).
      apply DictFacts.mem_In_keys. unfold Dict.mem. now rewrite G, Ho. }
  exists self, order. split; [exact E |].
  split; [intros o; now rewrite Hin, C |].
  split; [exact Hnd |]. split; [now apply Sorted_strict |].
  unfold get_stats_table. rewrite Eo. cbn [bind].
  rewrite (stats_rows self
             (fun o => count_with_outcome o (run_cases files))).
  - reflexivity.
  - intros o Ho. apply Hin in Ho. now rewrite G, Ho.
Qed.

(** ** The pages of the reports *)

Lemma string_app_assoc (a b c : string) :
  ((a ++ b) ++ c)%string = (a ++ b ++ c)%string.
Proof.
  induction a as [| x a IH]; cbn [append]; [reflexivity | now rewrite IH].
Qed.

Lemma string_app_length (a b : string) :
  String.length (a ++ b) = (String.length a + String.length b)%nat.
Proof.
  induction a as [| x a IH]; cbn [append String.length];
    [reflexivity | now rewrite IH].
Qed.

Lemma string_app_cancel_r (a b s : string) :
  (a ++ s)%string = (b ++ s)%string -> a = b.
Proof.
  revert b. induction a as [| x a IH]; intros [| y b] H.
  - reflexivity.
  - apply (f_equal String.length) in H.
    rewrite (string_app_length (String y b)) in H. simpl in H. lia.
  - apply (f_equal String.length) in H.
    rewrite (string_app_length (String x a)) in H. simpl in H. lia.
  - cbn [append] in H. injection H as -> H. f_equal. now apply IH.
Qed.

Lemma basename_no_slash (p : string) :
  has_slash (os_path.basename p) = false.
Proof.
  induction p as [| c p IH]; [reflexivity |].
  rewrite basename_cons. destruct (has_slash p) eqn:E; [exact IH |].
  destruct (Ascii.eqb c "/") eqn:C; [exact E |].
  unfold has_slash in *. cbn [list_ascii_of_string existsb].
  now rewrite Ascii.eqb_sym, C, E.
Qed.

(** The path of the page of a report whose base name holds no slash: a
    prefix that depends on the directory alone, then the base name. *)
Lemma join_base_name (a b : string) :
  has_slash b = false ->
  os_path_join a b
  = ((if String.eqb a EmptyString || endswith a "/" then a
      else (a ++ "/")%string) ++ b)%string.
Proof.
  intros H. unfold os_path_join.
  destruct b as [| c b].
  - destruct (String.eqb a EmptyString || endswith a "/"); [reflexivity |].
    now rewrite string_app_assoc.
  - assert (C : Ascii.eqb "/" c = false).
    { unfold has_slash in H. cbn [list_ascii_of_string existsb] in H.
      now apply orb_false_elim in H. }
    assert (J : forall X : Type, forall (x y : X),
              match String c b with
              | String "/"%char _ => x
              | _ => y
              end = y).
    { intros X x y.
      destruct c as [[] [] [] [] [] [] [] []]; try reflexivity.
      vm_compute in C. discriminate C. }
    rewrite J.
    destruct (String.eqb a EmptyString || endswith a "/"); [reflexivity |].
    now rewrite string_app_assoc.
Qed.

Lemma page_path_injective (out k k' : string) :
  has_slash k = false -> has_slash k' = false ->
  (os_path_join out k ++ ".html")%string
  = (os_path_join out k' ++ ".html")%string ->
  k = k'.
Proof.
  intros Hk Hk' H. rewrite !join_base_name in H by assumption.
  apply string_app_cancel_r in H. now apply append_cancel_l in H.
Qed.

Section Pages.

Variable html : parser.Junit -> string.
Variable out : string.

(** Every report of the matrix has its page. *)
Let paged (state : HtmlReportMatrix * Dict.t string) : Prop :=
  outdir (fst state) = out
  /\ forall k r,
       Dict.get k (reports (matrix (fst state))) = Some r ->
       has_slash k = false
       /\ Dict.get (os_path_join out k ++ ".html") (snd state)
          = Some (html r).

Lemma html_add_report_paged (filename : string) (parsed : parser.Junit)
  (state : HtmlReportMatrix * Dict.t string) :
  paged state ->
  exists state',
    html_add_report html filename parsed state = Ok state'
    /\ add_report filename parsed (matrix (fst state))
       = Ok (matrix (fst state'))
    /\ paged state'.
Proof.
  intros [Ho Hp]. unfold html_add_report. cbv zeta.
  destruct (add_report_applies filename parsed (matrix (fst state)))
    as (m & E & R & _).
  rewrite E. cbn [bind matrix outdir reports].
  unfold getitem. rewrite R, DictFacts.get_set_same. cbn [bind].
  eexists. split; [reflexivity |]. unfold paged.
  cbn [fst snd matrix outdir].
  split; [reflexivity |]. split; [exact Ho |].
  intros k r. rewrite R, DictFacts.get_set. rewrite Ho.
  destruct (String.eqb_spec k (os_path.basename filename)) as [-> | Hne].
  - intros [= <-]. split; [apply basename_no_slash |].
    apply DictFacts.get_set_same.
  - intros G. destruct (Hp k r G) as [Hs Hf]. split; [exact Hs |].
    rewrite DictFacts.get_set_other; [exact Hf |].
    intros Heq. apply Hne.
    apply (page_path_injective out); auto using basename_no_slash.
Qed.

Lemma html_add_reports_paged (files : list (string * parser.Junit)) :
  forall state,
    paged state ->
    exists state',
      html_add_reports html files state = Ok state'
      /\ add_reports files (matrix (fst state)) = Ok (matrix (fst state'))
      /\ paged state'.
Proof.
  unfold html_add_reports, add_reports.
  induction files as [| [f r] files IH]; intros state Hs.
  - exists state. auto.
  - destruct (html_add_report_paged f r state Hs) as (s1 & E1 & A1 & P1).
    destruct (IH s1 P1) as (s2 & E2 & A2 & P2).
    exists s2. cbn [for_each fst snd]. rewrite E1, A1. cbn [bind]. auto.
Qed.

End Pages.

(** X10. [HtmlReportMatrix.add_report] keeps a page for every report of
    the matrix: after any run on a new matrix, which never raises as long
    as the files can be written, the base class has done what
    [ReportMatrix.add_report] does, and for every key of [reports] the
    file [outdir/key.html] holds the HTML of the report that is registered
    under the key, the page of the first key, to which the links of the
    matrix lead, among them. *)
Theorem every_report_has_its_page (html : parser.Junit -> string)
  (out : string) (prop_prefix : option string) (prop_count : Z)
  (files : list (string * parser.Junit)) :
  exists self written,
    html_add_reports html files (html_init out prop_prefix prop_count, [])
    = Ok (self, written)
    /\ add_reports files (init prop_prefix prop_count) = Ok (matrix self)
    /\ outdir self = out
    /\ forall k r,
         Dict.get k (reports (matrix self)) = Some r ->
         Dict.get (os_path_join out k ++ ".html") written = Some (html r).
Proof.
  destruct (html_add_reports_paged html out files
              (html_init out prop_prefix prop_count, []))
    as ([self written] & E & A & Ho & Hp).
  - split; [reflexivity |]. intros k r. cbn [fst matrix html_init].
    destruct (init_attributes prop_prefix prop_count) as (-> & _).
    discriminate.
  - exists self, written. split; [exact E |]. split; [exact A |].
    split; [exact Ho |]. intros k r G. now apply (Hp k r).
Qed.

(** ** The text matrix *)

Lemma length_times (c : ascii) (n : Z) :
  String.length (times c n) = Z.to_nat n.
Proof.
  unfold times. generalize (Z.to_nat n). intros k.
  induction k as [| k IH]; cbn [repeat string_of_list_ascii String.length];
    [reflexivity | now rewrite IH].
Qed.

Lemma longest_name (names : list string) :
  forall start,
    (start <= fold_left (fun left_indent casename =>
                           Z.max (len casename) left_indent) names start)%Z
    /\ forall n, In n names ->
         (len n <= fold_left (fun left_indent casename =>
                                Z.max (len casename) left_indent)
                     names start)%Z.
Proof.
  induction names as [| x names IH]; intros start; cbn [fold_left].
  - split; [lia | intros n []].
  - destruct (IH (Z.max (len x) start)) as [Hs Hn]. split; [lia |].
    intros n [<- | Hin]; [lia | now apply Hn].
Qed.

(** The loop over the classes finds a width that no class name and no
    registered case name exceeds. *)
Lemma text_indent_Ok (self : ReportMatrix) :
  classes_have_names self ->
  forall l start,
    (forall c, In c l -> Dict.mem c (classes self) = true) ->
    exists left_indent,
      for_each (text_indent_class self) l start = Ok left_indent
      /\ (start <= left_indent)%Z
      /\ forall c, In c l ->
           (len c <= left_indent)%Z
           /\ forall names n,
                Dict.get c (casenames self) = Some names -> In n names ->
                (len n <= left_indent)%Z.
Proof.
  intros Ha l. induction l as [| c l IH]; intros start Hl.
  - exists start. split; [reflexivity |]. split; [lia | intros c []].
  - cbn [for_each]. unfold text_indent_class at 1. cbv zeta.
    destruct (getitem_mem _ _ (Ha c (Hl c (or_introl eq_refl))))
      as [names G].
    rewrite G. cbn [bind]. apply getitem_Ok in G.
    destruct (longest_name names (Z.max (len c) start)) as [Hs Hn].
    destruct (IH (fold_left (fun left_indent casename =>
                               Z.max (len casename) left_indent)
                    names (Z.max (len c) start)))
      as (li & E & Hli & Hc).
    { intros c' Hc'. apply Hl. now right. }
    exists li. split; [exact E |]. split; [lia |].
    intros c' [<- | Hin]; [| now apply Hc].
    split; [lia |]. intros names' n G' Hin. rewrite G in G'.
    injection G' as <-. specialize (Hn n Hin). lia.
Qed.

Section TextPage.

Context {po : ParserOutcomes} {u : str.Unicode}.
Variable skipped : parser.Case -> bool.
Variable failure : parser.Case -> bool.




(** The text is not rendered where the axes cannot be put in their order:
    [summary] asks for the order of the axes when it writes the headings. *)
Lemma text_summary_asks_for_the_order (self : ReportMatrix) (text : string) :
  text_summary skipped failure self = Ok text ->
  exists axes, property_order self = Ok axes.
Proof.
  unfold text_summary. intros H. cbv zeta in H.
  apply bind_Ok in H. destruct H as (left_indent & _ & H).
  apply bind_Ok in H. destruct H as (axes & Ho & _).
  eauto.
Qed.

End TextPage.



(** X12. The text matrix is aligned: the width that the first loop of
    [TextReportMatrix.summary] finds is at least the length of every class
    name and of every registered case name, so that the label of every
    row, padded to that width, is as long as the indentation of the
    headings of the axes, and the results of the row start in the column
    of the first axis. *)
Theorem text_rows_are_aligned (prop_prefix : option string)
  (prop_count : Z) (files : list (string * parser.Junit)) :
  exists self left_indent,
    add_reports files (init prop_prefix prop_count) = Ok self
    /\ for_each (text_indent_class self) (Dict.keys (classes self)) 0%Z
       = Ok left_indent
    /\ forall c names n,
         In c (Dict.keys (classes self)) ->
         Dict.get c (casenames self) = Some names -> In n names ->
         (len c <= left_indent)%Z
         /\ (len n <= left_indent)%Z
         /\ String.length (text_row_label left_indent n)
            = String.length (text_heading_indent left_indent).
Proof.
  destruct (add_reports_applies files (init prop_prefix prop_count))
    as (self & E & _).
  assert (Hs : consistent self).
  { apply (add_reports_consistent files _ _
             (init_consistent prop_prefix prop_count) E). }
  destruct (text_indent_Ok self (proj1 Hs) (Dict.keys (classes self)) 0%Z)
    as (li & Eli & Hpos & Hli).
  { intros c. apply DictFacts.mem_In_keys. }
  exists self, li. split; [exact E |]. split; [exact Eli |].
  intros c names n Hc G Hn.
  destruct (Hli c Hc) as [Hlc Hnames]. specialize (Hnames names n G Hn).
  split; [exact Hlc |]. split; [exact Hnames |].
  unfold text_row_label, text_heading_indent.
  rewrite !string_app_length, !length_times. unfold len in *.
  cbn [String.length]. lia.
Qed.

(** ** The classes of the axes in the header *)

Section HeaderFacts.

Context {po : ParserOutcomes}.



End HeaderFacts.

Section HeaderPage.

Context {po : ParserOutcomes} {u : str.Unicode}.







End HeaderPage.



(** ** The cases that the property axes collect *)

Lemma collects_nothing (s : ReportMatrix) : collects (fun _ => []) s s.
Proof.
  intros axis old H. now rewrite app_nil_r.
Qed.

Lemma collects_trans (l1 l2 : string -> list parser.Case)
  (s1 s2 s3 : ReportMatrix) :
  collects l1 s1 s2 -> collects l2 s2 s3 ->
  collects (fun axis => l1 axis ++ l2 axis) s1 s3.
Proof.
  intros H1 H2 axis old G. rewrite app_assoc. apply H2. now apply H1.
Qed.

Lemma collects_same_properties (l : string -> list parser.Case)
  (s s1 s' : ReportMatrix) :
  properties s1 = properties s -> collects l s1 s' -> collects l s s'.
Proof.
  intros E H axis old G. apply H. now rewrite E.
Qed.

Lemma for_each_collects {A : Type} (body : ReportMatrix -> A -> result ReportMatrix)
  (f : A -> string -> list parser.Case) (xs : list A) :
  (forall s x s', body s x = Ok s' -> collects (f x) s s') ->
  forall s s',
    for_each body xs s = Ok s' ->
    collects (fun axis => flat_map (fun x => f x axis) xs) s s'.
Proof.
  intros Hbody. induction xs as [| x xs IH]; intros s s' H.
  - injection H as <-. apply collects_nothing.
  - apply for_each_Ok_cons in H. destruct H as (s1 & H1 & H).
    cbn [flat_map].
    apply (collects_trans (f x) _ s s1 s'); [now apply Hbody | now apply IH].
Qed.

Lemma add_property_collects (c bn : string) (tc : parser.Case)
  (s s' : ReportMatrix) (p : parser.Property) :
  add_property c bn tc s p = Ok s' ->
  collects (fun axis => if String.eqb (parser.value p) axis then [tc] else [])
    s s'.
Proof.
  unfold add_property.
  destruct (Dict.mem (parser.value p) (properties s)) eqn:M; cbn [negb].
  - intros H. apply bind_Ok in H. destruct H as (tests & T & H).
    cbv beta zeta in H. apply bind_Ok in H. destruct H as (oc & _ & H).
    apply bind_Ok in H. destruct H as (ocase & _ & H).
    injection H as <-. apply getitem_Ok in T.
    intros axis old G. cbn [properties set_cases set_properties].
    rewrite DictFacts.get_set, (String.eqb_sym axis).
    destruct (String.eqb_spec (parser.value p) axis) as [E | _].
    + subst axis. congruence.
    + now rewrite app_nil_r.
  - intros [= <-] axis old G. cbn [properties print].
    destruct (String.eqb_spec (parser.value p) axis) as [E | _].
    + subst axis. unfold Dict.mem in M. now rewrite G in M.
    + now rewrite app_nil_r.
Qed.

Lemma add_case_collects (filename c : string) (s s' : ReportMatrix)
  (tc : parser.Case) :
  add_case filename c s tc = Ok s' ->
  collects (fun axis => naming_case axis tc) s s'.
Proof.
  unfold add_case. intros H. cbv zeta in H.
  apply bind_Ok in H. destruct H as (s1 & H1 & H).
  apply bind_Ok in H. destruct H as (oc & _ & H).
  apply bind_Ok in H. destruct H as (oc' & _ & H).
  apply bind_Ok in H. destruct H as (ocase & _ & H).
  apply (for_each_collects _
           (fun p axis =>
              if String.eqb (parser.value p) axis then [tc] else [])) in H;
    [| intros s0 p s0'; apply add_property_collects].
  apply (collects_same_properties _ _ _ _ eq_refl) in H.
  unfold naming_case.
  eapply collects_same_properties; [| exact H].
  assert (E : properties s1 = properties s).
  { destruct (Dict.mem (str.strip (parser.basename tc)) (casenames s));
      cbn [negb] in H1.
    - now injection H1 as <-.
    - apply bind_Ok in H1. destruct H1 as (names & _ & H1).
      now injection H1 as <-. }
  rewrite <- E.
  destruct (Dict.mem c (cases s1)); cbn [negb];
    match goal with
    | |- context [Dict.mem ?k ?d] => destruct (Dict.mem k d)
    end; cbn [negb]; reflexivity.
Qed.

Lemma add_class_collects (filename : string) (suite : parser.Suite)
  (s s' : ReportMatrix) (c : string) :
  add_class filename suite s c = Ok s' ->
  collects
    (fun axis =>
       naming axis
         match Dict.get c (parser.classes suite) with
         | Some subtree => parser.cases subtree
         | None => []
         end) s s'.
Proof.
  unfold add_class. intros H. cbv zeta in H.
  apply bind_Ok in H. destruct H as (oc & _ & H).
  apply bind_Ok in H. destruct H as (subtree & G & H).
  apply bind_Ok in H. destruct H as (oc' & G' & H).
  apply bind_Ok in H. destruct H as (stored & Gs & H).
  apply getitem_Ok in G, G', Gs. rewrite G.
  assert (Es : stored = subtree).
  { cbn [classes set_classes] in G'.
    rewrite DictFacts.get_set_same in G'. injection G' as <-.
    rewrite DictFacts.get_set_same in Gs. congruence. }
  subst stored.
  apply (for_each_collects _ (fun tc axis => naming_case axis tc)) in H;
    [| intros s0 tc s0'; apply add_case_collects].
  unfold naming.
  eapply collects_same_properties; [| exact H].
  destruct (Dict.mem c (classes s)); cbn [negb];
    match goal with
    | |- context [Dict.mem ?k ?d] => destruct (Dict.mem k d)
    end; cbn [negb]; reflexivity.
Qed.

Lemma naming_app (axis : string) (l1 l2 : list parser.Case) :
  naming axis (l1 ++ l2) = naming axis l1 ++ naming axis l2.
Proof.
  apply flat_map_app.
Qed.

Lemma naming_flat_map {A : Type} (axis : string) (f : A -> list parser.Case)
  (xs : list A) :
  flat_map (fun x => naming axis (f x)) xs = naming axis (flat_map f xs).
Proof.
  induction xs as [| x xs IH]; [reflexivity |].
  cbn [flat_map]. now rewrite naming_app, IH.
Qed.

Lemma collects_ext (l1 l2 : string -> list parser.Case)
  (s s' : ReportMatrix) :
  (forall axis, l1 axis = l2 axis) -> collects l1 s s' -> collects l2 s s'.
Proof.
  intros E H axis old G. rewrite <- E. now apply H.
Qed.

Lemma add_suite_collects (filename : string) (s s' : ReportMatrix)
  (suite : parser.Suite) :
  add_suite filename s suite = Ok s' ->
  collects (fun axis => naming axis (suite_cases suite)) s s'.
Proof.
  unfold add_suite. intros H.
  apply (for_each_collects _
           (fun c axis =>
              naming axis
                match Dict.get c (parser.classes suite) with
                | Some subtree => parser.cases subtree
                | None => []
                end)) in H;
    [| intros s0 c s0'; apply add_class_collects].
  revert H. apply collects_ext. intros axis. apply naming_flat_map.
Qed.

Lemma add_report_collects (filename : string) (parsed : parser.Junit)
  (s s' : ReportMatrix) :
  add_report filename parsed s = Ok s' ->
  collects (fun axis => naming axis (report_cases parsed)) s s'.
Proof.
  unfold add_report. intros H. cbv zeta in H.
  apply (for_each_collects _
           (fun suite axis => naming axis (suite_cases suite))) in H;
    [| intros s0 suite s0'; apply add_suite_collects].
  apply (collects_same_properties _ s) in H; [| reflexivity].
  revert H. apply collects_ext. intros axis. apply naming_flat_map.
Qed.

(** X14. Every declared property axis collects the cases that name it: a
    run of [add_report] succeeds, and afterwards the list of an axis that
    was declared before the run is its old list followed by the cases of
    the run, in the order of the loops, once for each property of a case
    that has the axis as its value. *)
Theorem axes_collect_their_cases (files : list (string * parser.Junit))
  (self : ReportMatrix) :
  exists self',
    add_reports files self = Ok self'
    /\ forall axis old,
         Dict.get axis (properties self) = Some old ->
         Dict.get axis (properties self')
         = Some (old ++ naming axis (run_cases files)).
Proof.
  destruct (add_reports_applies files self) as (self' & E & _).
  exists self'. split; [exact E |].
  unfold add_reports in E.
  apply (for_each_collects _
           (fun file axis => naming axis (report_cases (snd file)))) in E;
    [| intros s0 file s0'; apply add_report_collects].
  intros axis old G. rewrite (E axis old G). do 2 f_equal.
  apply naming_flat_map.
Qed.

Lemma axes_collect_their_cases_witness :
  Dict.get "REQ1" (properties (init (Some "REQ") 2)) = Some []
  /\ exists self',
       add_reports two_reports (init (Some "REQ") 2) = Ok self'
       /\ Dict.get "REQ1" (properties self') = Some [case_A].
Proof.
  split; [reflexivity |].
  destruct (axes_collect_their_cases two_reports (init (Some "REQ") 2))
    as (self' & E & H).
  exists self'. split; [exact E |].
  apply (H "REQ1" []). reflexivity.
Defined.

(** ** The keys of the axes are made before the axes are compared *)

Lemma comprehension_raises {A B : Type} (f : A -> result B) (x : A)
  (e : exception) (back : list A) :
  f x = Raise e ->
  forall front,
    (forall a, In a front -> exists y, f a = Ok y) ->
    comprehension f (front ++ x :: back) = Raise e.
Proof.
  intros Hx. induction front as [| a front IH]; intros H; simpl.
  - now rewrite Hx.
  - destruct (H a (or_introl eq_refl)) as [y ->]. cbn [bind].
    rewrite IH; [reflexivity |]. intros b Hb. apply H. now right.
Qed.

(** X15. [sorted] makes the keys of all items before it compares any: when
    [natural_sort_key] raises for a declared axis, and does not for the
    axes declared before it, [property_order] raises the same exception,
    and neither [HtmlReportMatrix.summary] nor [TextReportMatrix.summary]
    renders the matrix. *)
Theorem property_order_raises_with_a_key {po : ParserOutcomes}
  {u : str.Unicode} (self : ReportMatrix) (front back : list string)
  (axis : string) (e : exception) :
  Dict.keys (properties self) = front ++ axis :: back ->
  (forall a, In a front -> exists k, natural_sort_key a = Ok k) ->
  natural_sort_key axis = Raise e ->
  property_order self = Raise e
  /\ (forall get_html_head page, summary get_html_head self <> Ok page)
  /\ (forall skipped failure text,
        text_summary skipped failure self <> Ok text).
Proof.
  intros K Hf Ha.
  assert (E : property_order self = Raise e).
  { unfold property_order, sorted_by_key. rewrite K.
    rewrite (comprehension_raises _ axis e back); [reflexivity | |].
    - now rewrite Ha.
    - intros a Hin. destruct (Hf a Hin) as [k ->]. cbn [bind]. eauto. }
  split; [exact E |]. split.
  - intros get_html_head page Hp.
    destruct (summary_asks_for_the_order _ _ _ Hp) as [axes Ho].
    rewrite E in Ho. discriminate.
  - intros skipped failure text Ht.
    destruct (text_summary_asks_for_the_order _ _ _ _ Ht) as [axes Ho].
    rewrite E in Ho. discriminate.
Qed.

(** A run of X15: a construction with the superscript two for prefix. The
    pattern leaves the prefix in a piece of its own, [isdigit] takes the
    piece for a number and [int] raises [ValueError]. *)
Lemma property_order_raises_with_a_key_witness :
  Dict.keys (properties (init (Some superscript_two) 2))
  = [] ++ (superscript_two ++ "1")%string :: [(superscript_two ++ "2")%string]
  /\ @natural_sort_key with_superscript_two (superscript_two ++ "1")
     = Raise ValueError
  /\ @property_order with_superscript_two (init (Some superscript_two) 2)
     = Raise ValueError.
Proof.
  split; [reflexivity |]. split; [reflexivity |].
  apply (@property_order_raises_with_a_key junit_outcomes
           with_superscript_two (init (Some superscript_two) 2) []
           [(superscript_two ++ "2")%string] (superscript_two ++ "1")%string
           ValueError);
    [reflexivity | intros a [] | reflexivity].
Defined.
